(** * Bitwise stability of the prime resonance cascade

    A shallow embedding of [analysis.py]: the resonance term [R], the
    cascade product [Cn], the binary64 codec [float_to_bin64], the two bit
    comparators [common_bit_prefix] and [hamming_distance], the
    predictor [empirical_stability_law], and the two demonstration drivers
    [demo_sequence_extension] and [demo_input_perturbation].

    Python floats are IEEE-754 binary64 values.  They are modelled by
    [pyfloat], the four classes of a binary64 datum with the NaN payload
    kept, and computed on with the Standard Library's executable
    specification of binary floating point ([SpecFloat], precision 53,
    [emax] 1024).  Python exceptions are the [Err] side of [result]. *)

From Stdlib Require Import ZArith List String Ascii Bool Lia Sorted.
From Stdlib Require Import SpecFloat.
Import ListNotations.

Local Open Scope Z_scope.

(** ** Exceptions and the error monad *)

Inductive exn : Type :=
| IndexError
| ValueError
| OverflowError
| ZeroDivisionError
| StructError.

Inductive result (A : Type) : Type :=
| Ok (a : A)
| Err (e : exn).

Arguments Ok {A} a.
Arguments Err {A} e.

Definition bind {A B : Type} (r : result A) (k : A -> result B) : result B :=
  match r with
  | Ok a => k a
  | Err e => Err e
  end.

Notation "x <- r ;; k" := (bind r (fun x => k))
  (at level 61, r at next level, right associativity).

(** ** Python floats *)

Module Float.

Definition prec : Z := 53.
Definition emax : Z := 1024.

(** A binary64 datum.  [Fnan] keeps the sign and the payload (the 52
    trailing significand bits, not all zero), so that every one of the
    2^64 bit patterns is the encoding of exactly one well-formed value. *)
Inductive pyfloat : Type :=
| Fzero (s : bool)
| Finf (s : bool)
| Fnan (s : bool) (pl : positive)
| Ffinite (s : bool) (m : positive) (e : Z).

Definition wf (x : pyfloat) : bool :=
  match x with
  | Fnan _ pl => Z.pos pl <? 2 ^ 52
  | Ffinite _ m e => bounded prec emax m e
  | _ => true
  end.

Definition to_SF (x : pyfloat) : spec_float :=
  match x with
  | Fzero s => S754_zero s
  | Finf s => S754_infinity s
  | Fnan _ _ => S754_nan
  | Ffinite s m e => S754_finite s m e
  end.

(** An arithmetic NaN is the default quiet NaN. *)
Definition of_SF (x : spec_float) : pyfloat :=
  match x with
  | S754_zero s => Fzero s
  | S754_infinity s => Finf s
  | S754_nan => Fnan false (2 ^ 51)%positive
  | S754_finite s m e => Ffinite s m e
  end.

Definition is_nan (x : pyfloat) : bool :=
  match x with Fnan _ _ => true | _ => false end.

Definition is_inf (x : pyfloat) : bool :=
  match x with Finf _ => true | _ => false end.

Definition is_finite (x : pyfloat) : bool :=
  match x with Fzero _ | Ffinite _ _ _ => true | _ => false end.

Definition mul (x y : pyfloat) : pyfloat :=
  of_SF (SFmul prec emax (to_SF x) (to_SF y)).

Definition div (x y : pyfloat) : pyfloat :=
  of_SF (SFdiv prec emax (to_SF x) (to_SF y)).

Definition add (x y : pyfloat) : pyfloat :=
  of_SF (SFadd prec emax (to_SF x) (to_SF y)).

Definition sub (x y : pyfloat) : pyfloat :=
  of_SF (SFsub prec emax (to_SF x) (to_SF y)).

(** [abs(x)] on a float. *)
Definition abs (x : pyfloat) : pyfloat := of_SF (SFabs (to_SF x)).

Definition eqb (x y : pyfloat) : bool := SFeqb (to_SF x) (to_SF y).
Definition ltb (x y : pyfloat) : bool := SFltb (to_SF x) (to_SF y).
Definition leb (x y : pyfloat) : bool := SFleb (to_SF x) (to_SF y).

Definition zero : pyfloat := Fzero false.
Definition neg_zero : pyfloat := Fzero true.
Definition one : pyfloat := Ffinite false (2 ^ 52)%positive (-52).
Definition inf : pyfloat := Finf false.

(** [math.pi], the double 0x400921FB54442D18. *)
Definition pi : pyfloat := Ffinite false 7074237752028440%positive (-51).

(** The smallest positive double, 5e-324. *)
Definition min_subnormal : pyfloat := Ffinite false 1%positive (-1074).

(** The double nearest to an integer (round to nearest, ties to even). *)
Definition of_Z (n : Z) : pyfloat :=
  of_SF (binary_normalize prec emax n 0 false).

(** Conversion of a Python [int] to a float, as the arithmetic operators
    do for a mixed operand: [OverflowError] when the integer is too large
    for a double. *)
Definition of_int (n : Z) : result pyfloat :=
  let r := of_Z n in
  if is_inf r then Err OverflowError else Ok r.

(** [x / n] for a float [x] and an int [n]. *)
Definition truediv_int (x : pyfloat) (n : Z) : result pyfloat :=
  y <- of_int n ;;
  if eqb y zero then Err ZeroDivisionError else Ok (div x y).

(** [n / x] for an int [n] and a float [x]. *)
Definition int_truediv (n : Z) (x : pyfloat) : result pyfloat :=
  y <- of_int n ;;
  if eqb x zero then Err ZeroDivisionError else Ok (div y x).

(** [math.floor] on a float: the exact integer floor of a finite value,
    [ValueError] on a NaN and [OverflowError] on an infinity. *)
Definition floor (x : pyfloat) : result Z :=
  match x with
  | Fzero _ => Ok 0
  | Finf _ => Err OverflowError
  | Fnan _ _ => Err ValueError
  | Ffinite s m e =>
      let sm := if s then Z.neg m else Z.pos m in
      Ok (if 0 <=? e then sm * 2 ^ e else sm / 2 ^ (- e))
  end.

End Float.

Import Float.

(** ** The [math] module

    [math.sin], [math.cos] and [math.log2] call the C library and then
    turn a NaN produced from a number, or an infinity produced from a
    finite number, into an exception.  The C library's functions are
    parameters: their rounding is not specified. *)

Module Math.

Definition nan : pyfloat := Fnan false (2 ^ 51)%positive.

(** The wrapper every one-argument function of [math] goes through. *)
Definition math_1 (func : pyfloat -> pyfloat) (can_overflow : bool)
    (x : pyfloat) : result pyfloat :=
  let r := func x in
  if is_nan r && negb (is_nan x) then Err ValueError
  else if is_inf r && is_finite x then
    Err (if can_overflow then OverflowError else ValueError)
  else Ok r.

(** [log2] with the special cases decided before the C library is
    called: NaN and +inf are returned, a zero gives -inf and a negative
    number a NaN (both then rejected by [math_1]). *)
Definition m_log2 (libm_log2 : pyfloat -> pyfloat) (x : pyfloat) : pyfloat :=
  match x with
  | Fnan _ _ => x
  | Finf false => x
  | Finf true => nan
  | Ffinite false _ _ => libm_log2 x
  | Fzero _ => Finf true
  | Ffinite true _ _ => nan
  end.

Definition sin (libm_sin : pyfloat -> pyfloat) := math_1 libm_sin false.
Definition cos (libm_cos : pyfloat -> pyfloat) := math_1 libm_cos false.
Definition log2 (libm_log2 : pyfloat -> pyfloat) :=
  math_1 (m_log2 libm_log2) false.

End Math.

(** ** The prime source

    Modelled from the spec: [sympy.primerange a b], which is not part of
    the repository, yields the primes [p] with [a <= p < b] in ascending
    order.  Primality is decided by trial division up to the square root. *)

Fixpoint trial_division (fuel : nat) (d n : Z) : bool :=
  match fuel with
  | O => true
  | S fuel' =>
      if n <? d * d then true
      else if n mod d =? 0 then false
      else trial_division fuel' (d + 1) n
  end.

Definition isprime (n : Z) : bool :=
  (2 <=? n) && trial_division (Z.to_nat (Z.sqrt n)) 2 n.

(** The integers [a], [a + 1], ... up to [b] excluded. *)
Fixpoint count_from (len : nat) (a : Z) : list Z :=
  match len with
  | O => []
  | S len' => a :: count_from len' (a + 1)
  end.

Definition interval (a b : Z) : list Z := count_from (Z.to_nat (b - a)) a.

Definition primerange (a b : Z) : list Z := filter isprime (interval a b).

(** ** Python sequences *)

(** [range(n)]: empty when [n <= 0]. *)
Definition range (n : Z) : list Z := interval 0 n.

(** [l[i]]: a negative index counts from the end, an index out of range
    raises [IndexError]. *)
Definition getitem {A : Type} (l : list A) (i : Z) : result A :=
  let j := if i <? 0 then i + Z.of_nat (List.length l) else i in
  if j <? 0 then Err IndexError
  else match nth_error l (Z.to_nat j) with
       | Some a => Ok a
       | None => Err IndexError
       end.

(** A Python [str]: its characters in order. *)
Definition str : Type := list ascii.

(** [zip] applied to the unpacked list of strings: the tuples of
    characters at positions 0, 1, ... up to the end of the shortest
    string; nothing when there is no string. *)
Fixpoint heads_tails (ss : list str) : option (list ascii * list str) :=
  match ss with
  | [] => Some ([], [])
  | [] :: _ => None
  | (c :: s) :: ss' =>
      match heads_tails ss' with
      | Some (hs, ts) => Some (c :: hs, s :: ts)
      | None => None
      end
  end.

Fixpoint zip_from (first : str) (others : list str) : list (list ascii) :=
  match first with
  | [] => []
  | c :: first' =>
      match heads_tails others with
      | Some (hs, ts) => (c :: hs) :: zip_from first' ts
      | None => []
      end
  end.

Definition zip_star (ss : list str) : list (list ascii) :=
  match ss with
  | [] => []
  | s :: ss' => zip_from s ss'
  end.

(** [sum(...)] of integers, from 0, left to right. *)
Definition sum (l : list Z) : Z := fold_left Z.add l 0.

(** ** The [struct] module and string formatting *)

Module Struct.

(** The three fields of the binary64 interchange format. *)
Definition sign (x : pyfloat) : bool :=
  match x with
  | Fzero s | Finf s | Fnan s _ | Ffinite s _ _ => s
  end.

Definition exponent (x : pyfloat) : Z :=
  match x with
  | Fzero _ => 0
  | Finf _ | Fnan _ _ => 2047
  | Ffinite _ m e => if Z.pos m <? 2 ^ 52 then 0 else e + 1075
  end.

Definition mantissa (x : pyfloat) : Z :=
  match x with
  | Fzero _ | Finf _ => 0
  | Fnan _ pl => Z.pos pl
  | Ffinite _ m _ => if Z.pos m <? 2 ^ 52 then Z.pos m else Z.pos m - 2 ^ 52
  end.

(** The 64-bit pattern of a double. *)
Definition bits (x : pyfloat) : Z :=
  Z.b2z (sign x) * 2 ^ 63 + exponent x * 2 ^ 52 + mantissa x.

(** [struct.pack(">d", x)]: the eight bytes of the pattern, the most
    significant first. *)
Definition pack_d (x : pyfloat) : list Z :=
  map (fun k => Z.land (Z.shiftr (bits x) (8 * k)) 255) [7; 6; 5; 4; 3; 2; 1; 0].

(** [struct.unpack(">Q", b)]: the unsigned integer whose big-endian bytes
    are [b]; an error unless there are eight of them. *)
Definition unpack_Q (b : list Z) : result Z :=
  if Nat.eqb (List.length b) 8 then Ok (fold_left (fun acc c => acc * 256 + c) b 0)
  else Err StructError.

(** Binary digits of a positive number, the most significant first,
    placed in front of [acc]. *)
Fixpoint bin_pos (p : positive) (acc : str) : str :=
  match p with
  | xH => "1"%char :: acc
  | xO q => bin_pos q ("0"%char :: acc)
  | xI q => bin_pos q ("1"%char :: acc)
  end.

(** [f"{d:064b}"]: the binary digits of [d], after the sign if any, with
    zeros in between up to a width of at least 64. *)
Definition format_064b (d : Z) : str :=
  let sgn := match d with Zneg _ => ["-"%char] | _ => [] end in
  let digits :=
    match d with
    | Z0 => ["0"%char]
    | Zpos p | Zneg p => bin_pos p []
    end in
  sgn ++ repeat "0"%char (64 - List.length sgn - List.length digits) ++ digits.

End Struct.

(** ** analysis.py *)

Section Analysis.

(** The C library's [sin], [cos] and [log2] on doubles. *)
Variables libm_sin libm_cos libm_log2 : pyfloat -> pyfloat.

(** Canonical resonance function. *)
Definition R (z : pyfloat) (p : Z) : result pyfloat :=
  a <- truediv_int pi p ;;
  s1 <- Math.sin libm_sin a ;;
  b <- truediv_int pi (2 * p) ;;
  c <- Math.cos libm_cos b ;;
  a' <- truediv_int pi p ;;
  s2 <- Math.sin libm_sin a' ;;
  Ok (mul (mul s1 c) s2).

(** The body of the loop [for i in range(n): product *= R(z, primes[i])]. *)
Fixpoint Cn_loop (z : pyfloat) (primes : list Z) (indices : list Z)
    (product : pyfloat) : result pyfloat :=
  match indices with
  | [] => Ok product
  | i :: indices' =>
      p <- getitem primes i ;;
      r <- R z p ;;
      Cn_loop z primes indices' (mul product r)
  end.

(** The resonance cascade: the product of [R z pk] for k = 1..n. *)
Definition Cn (z : pyfloat) (n : Z) : result pyfloat :=
  let primes := primerange 2 (2 + 10000) in
  Cn_loop z primes (range n) one.

(** The binary64 representation of a float as a string of 64 bits. *)
Definition float_to_bin64 (x : pyfloat) : result str :=
  d <- Struct.unpack_Q (Struct.pack_d x) ;;
  Ok (Struct.format_064b d).

(** The list comprehension [[float_to_bin64(x) for x in xs]]. *)
Fixpoint bins_of (xs : list pyfloat) : result (list str) :=
  match xs with
  | [] => Ok []
  | x :: xs' =>
      b <- float_to_bin64 x ;;
      bs <- bins_of xs' ;;
      Ok (b :: bs)
  end.

(** [all(b == bits[0] for b in bits)]; [bits[0]] is only evaluated when
    [bits] has an element. *)
Definition all_equal_first (bits : list ascii) : bool :=
  match bits with
  | [] => true
  | b0 :: _ => forallb (fun b => Ascii.eqb b b0) bits
  end.

(** The loop over the columns, left at the first disagreement. *)
Fixpoint prefix_loop (columns : list (list ascii)) (prefix_len : Z) : Z :=
  match columns with
  | [] => prefix_len
  | bits :: columns' =>
      if all_equal_first bits then prefix_loop columns' (prefix_len + 1)
      else prefix_len
  end.

(** The length of the common bit prefix among a list of floats. *)
Definition common_bit_prefix (xs : list pyfloat) : result Z :=
  bins <- bins_of xs ;;
  Ok (prefix_loop (zip_star bins) 0).

(** The Hamming distance between two floats' binary64 representations. *)
Definition hamming_distance (x y : pyfloat) : result Z :=
  bx <- float_to_bin64 x ;;
  by_ <- float_to_bin64 y ;;
  Ok (sum (map (fun '(b1, b2) => Z.b2z (negb (Ascii.eqb b1 b2)))
             (combine bx by_))).

(** The predicted number of stable bits for a given epsilon. *)
Definition empirical_stability_law (epsilon : pyfloat) : result Z :=
  if eqb epsilon zero then Ok 64
  else
    q <- int_truediv 1 epsilon ;;
    l <- Math.log2 libm_log2 q ;;
    f <- Float.floor l ;;
    Ok (64 - f).

End Analysis.

(** ** The demonstration drivers

    What a driver hands to [print] and to the plotting library is kept as
    a list of output records, in the order of the calls; a record holds
    the values that the call formats, not the formatted text.  A driver
    returns the output produced so far together with its outcome, so that
    an exception keeps what was printed before it. *)

Inductive output : Type :=
| PrefixLine (n_start n_end prefix : Z)
| SampleLine (n : Z) (val : pyfloat) (bits : str)
| Plot (ns : list Z) (vals : list pyfloat)
| BaseLine (base perturbed : pyfloat)
| CommonPrefixLine (prefix : Z)
| HammingLine (hamming : Z)
| DifferenceLine (diff : pyfloat)
| LawLine (predicted : Z).

Definition io (A : Type) : Type := list output * result A.

Definition io_ret {A : Type} (a : A) : io A := ([], Ok a).

Definition io_bind {A B : Type} (m : io A) (k : A -> io B) : io B :=
  match m with
  | (out, Ok a) => let (out', r) := k a in (out ++ out', r)
  | (out, Err e) => (out, Err e)
  end.

(** A computation that prints nothing. *)
Definition silent {A : Type} (r : result A) : io A := ([], r).

Definition print (l : output) : io unit := ([l], Ok tt).

Notation "x <~ m ;; k" := (io_bind m (fun x => k))
  (at level 61, m at next level, right associativity).

Section Demonstrations.

Variables libm_sin libm_cos libm_log2 : pyfloat -> pyfloat.

(** The loop [for n in range(n_start, n_end + 1)] that fills [results]
    (and [ns], which is the range itself, and [vals], a copy). *)
Fixpoint scan (z : pyfloat) (ns : list Z) : result (list pyfloat) :=
  match ns with
  | [] => Ok []
  | n :: ns' =>
      val <- Cn libm_sin libm_cos z n ;;
      results <- scan z ns' ;;
      Ok (val :: results)
  end.

(** The loop [for i, val in enumerate(results, n_start)] and its [print]. *)
Fixpoint print_samples (i : Z) (results : list pyfloat) : io unit :=
  match results with
  | [] => io_ret tt
  | val :: results' =>
      bits <~ silent (float_to_bin64 val) ;;
      _ <~ print (SampleLine i val bits) ;;
      print_samples (i + 1) results'
  end.

(** Bitwise stability as n increases. *)
Definition demo_sequence_extension (z : pyfloat) (n_start n_end : Z) : io unit :=
  let ns := interval n_start (n_end + 1) in
  results <~ silent (scan z ns) ;;
  prefix <~ silent (common_bit_prefix results) ;;
  _ <~ print (PrefixLine n_start n_end prefix) ;;
  _ <~ print_samples n_start results ;;
  print (Plot ns results).

(** Bitwise stability under small perturbations of z. *)
Definition demo_input_perturbation (z : pyfloat) (n : Z) (delta : pyfloat) : io unit :=
  base <~ silent (Cn libm_sin libm_cos z n) ;;
  perturbed <~ silent (Cn libm_sin libm_cos (add z delta) n) ;;
  prefix <~ silent (common_bit_prefix [base; perturbed]) ;;
  hamming <~ silent (hamming_distance base perturbed) ;;
  let diff := abs (sub base perturbed) in
  _ <~ print (BaseLine base perturbed) ;;
  _ <~ print (CommonPrefixLine prefix) ;;
  _ <~ print (HammingLine hamming) ;;
  _ <~ print (DifferenceLine diff) ;;
  predicted <~ silent (empirical_stability_law libm_log2 diff) ;;
  print (LawLine predicted).

End Demonstrations.

(** ** Reference definitions

    What the specification's words denote, to compare the code with. *)

(** The double [pi / k], for an integer [k]. *)
Definition pi_over (k : Z) : pyfloat := div pi (of_Z k).

(** sin(pi/p) * cos(pi/(2p)) * sin(pi/p), multiplied left to right. *)
Definition ResonanceTerm (sin cos : pyfloat -> pyfloat) (p : Z) : pyfloat :=
  mul (mul (sin (pi_over p)) (cos (pi_over (2 * p)))) (sin (pi_over p)).

(** The product of the resonance terms of a list of primes, accumulated
    from 1.0 from the left. *)
Definition CascadeProduct (sin cos : pyfloat -> pyfloat) (ps : list Z) : pyfloat :=
  fold_left (fun acc p => mul acc (ResonanceTerm sin cos p)) ps one.

(** The [w] low bits of [v] as characters, the most significant first. *)
Definition bit_char (b : bool) : ascii := if b then "1"%char else "0"%char.

Fixpoint bits_be (w : nat) (v : Z) : str :=
  match w with
  | O => []
  | S w' => bit_char (Z.testbit v (Z.of_nat w')) :: bits_be w' v
  end.

Definition binary_digit (c : ascii) : Prop := c = "0"%char \/ c = "1"%char.

(** The encoding of a double, as [float_to_bin64] returns it. *)
Definition encoding (x : pyfloat) : str := bits_be 64 (Struct.bits x).

(** All strings of [ss] have [k] characters and agree on them. *)
Definition common_prefix (k : nat) (ss : list str) : Prop :=
  forall s t, In s ss -> In t ss ->
    (k <= List.length s)%nat /\ firstn k s = firstn k t.

(** The number of positions at which two strings differ, up to the end of
    the shorter one. *)
Definition differences (l1 l2 : str) : Z :=
  sum (map (fun '(b1, b2) => Z.b2z (negb (Ascii.eqb b1 b2))) (combine l1 l2)).

(** The value of the cascade of length [n], when there are enough primes. *)
Definition cascade_value (sin cos : pyfloat -> pyfloat) (n : Z) : pyfloat :=
  CascadeProduct sin cos (firstn (Z.to_nat n) (primerange 2 (2 + 10000))).

(** The lines printed for the samples [vals], numbered from [i]. *)
Fixpoint sample_lines (i : Z) (vals : list pyfloat) : list output :=
  match vals with
  | [] => []
  | val :: vals' => SampleLine i val (bits_be 64 (Struct.bits val)) :: sample_lines (i + 1) vals'
  end.

(** [ys] is [xs] with some elements left out. *)
Inductive subsequence {A : Type} : list A -> list A -> Prop :=
| subsequence_nil : subsequence [] []
| subsequence_skip x ys xs : subsequence ys xs -> subsequence ys (x :: xs)
| subsequence_take x ys xs : subsequence ys xs -> subsequence (x :: ys) (x :: xs).

(** A C library to run the model on: the first terms of the series of
    [sin] and [cos] at 0, and the integer part of [log2], which is [log2]
    itself on the powers of two. *)
Module SampleLibm.

Definition sin (x : pyfloat) : pyfloat := x.

Definition cos (x : pyfloat) : pyfloat := one.

Definition log2 (x : pyfloat) : pyfloat :=
  match x with
  | Ffinite _ m e => of_Z (Z.pos (digits2_pos m) - 1 + e)
  | _ => x
  end.

End SampleLibm.

(** * Properties *)

(** ** The prime source *)

Lemma trial_division_spec (n : Z) :
  forall fuel d, 2 <= d -> n < (d + Z.of_nat fuel) * (d + Z.of_nat fuel) ->
    (trial_division fuel d n = true <->
     forall k, d <= k -> k * k <= n -> ~ (k | n)).
Proof.
  induction fuel as [|fuel IH]; intros d Hd Hn; simpl trial_division.
  - split; [intros _ k Hk Hkk _; nia | reflexivity].
  - destruct (Z.ltb_spec n (d * d)) as [Hlt|Hge].
    + split; [intros _ k Hk Hkk _; nia | reflexivity].
    + destruct (Z.eqb_spec (n mod d) 0) as [Hz|Hnz].
      * split; [discriminate|].
        intros H. exfalso. apply (H d); [lia | lia |].
        apply Z.mod_divide; lia.
      * rewrite IH by lia. split; intros H k Hk Hkk.
        -- destruct (Z.eq_dec k d) as [->|Hne].
           ++ intros Hdiv. apply Hnz. apply Z.mod_divide; [lia | exact Hdiv].
           ++ apply H; lia.
        -- apply H; lia.
Qed.

Lemma isprime_iff (n : Z) : isprime n = true <-> Z.prime n.
Proof.
  unfold isprime. rewrite andb_true_iff, Z.leb_le.
  split.
  - intros [Hn Htd]. split; [lia|].
    intros k Hk Hdiv.
    assert (Hs := Z.sqrt_spec n ltac:(lia)).
    rewrite trial_division_spec in Htd
      by (rewrite ?Z2Nat.id by apply Z.sqrt_nonneg; unfold Z.succ in Hs; nia).
    destruct Hdiv as [q Hq].
    assert (1 < q < n) by nia.
    destruct (Z_le_gt_dec k q).
    + apply (Htd k); [lia | nia | exists q; exact Hq].
    + apply (Htd q); [lia | nia | exists k; lia].
  - intros Hp. assert (Hn := Z.prime_ge_2 n Hp). split; [exact Hn|].
    assert (Hs := Z.sqrt_spec n ltac:(lia)).
    apply trial_division_spec;
      [lia | rewrite Z2Nat.id by apply Z.sqrt_nonneg; unfold Z.succ in Hs; nia |].
    intros k Hk Hkk Hdiv.
    destruct (Z.divide_prime_r k n Hp Hdiv) as [?|[?|[?|?]]]; nia.
Qed.

Lemma in_count_from (x : Z) :
  forall len a, In x (count_from len a) <-> a <= x < a + Z.of_nat len.
Proof.
  induction len as [|len IH]; intros a; simpl count_from.
  - simpl. lia.
  - simpl In. rewrite IH. lia.
Qed.

Lemma count_from_sorted :
  forall len a, StronglySorted Z.lt (count_from len a).
Proof.
  induction len as [|len IH]; intros a; simpl; constructor.
  - apply IH.
  - apply Forall_forall. intros x Hx. apply in_count_from in Hx. lia.
Qed.

Lemma filter_sorted (f : Z -> bool) (l : list Z) :
  StronglySorted Z.lt l -> StronglySorted Z.lt (filter f l).
Proof.
  induction 1 as [|a l Hs IH Hall]; simpl; [constructor|].
  destruct (f a); [|exact IH].
  constructor; [exact IH|].
  rewrite Forall_forall in *. intros x Hx. apply filter_In in Hx. apply Hall, Hx.
Qed.

Lemma primerange_spec (a b p : Z) :
  In p (primerange a b) <-> a <= p < b /\ Z.prime p.
Proof.
  unfold primerange, interval.
  rewrite filter_In, in_count_from, isprime_iff.
  destruct (Z.le_gt_cases a b) as [Hab|Hab].
  - rewrite Z2Nat.id by lia. intuition lia.
  - replace (Z.to_nat (b - a)) with O by lia. intuition lia.
Qed.

Lemma primerange_sorted (a b : Z) : StronglySorted Z.lt (primerange a b).
Proof. apply filter_sorted, count_from_sorted. Qed.

(** ** Sorted lists and their initial segments *)

Lemma sorted_app_lt (a b : list Z) :
  StronglySorted Z.lt (a ++ b) ->
  forall x y, In x a -> In y b -> x < y.
Proof.
  induction a as [|h a IH]; simpl; intros Hs x y Hx Hy; [contradiction|].
  apply StronglySorted_inv in Hs. destruct Hs as [Hs Hall].
  destruct Hx as [<-|Hx].
  - rewrite Forall_forall in Hall. apply Hall, in_or_app. right. exact Hy.
  - apply IH; assumption.
Qed.

Lemma sorted_app_l (a b : list Z) :
  StronglySorted Z.lt (a ++ b) -> StronglySorted Z.lt a.
Proof.
  induction a as [|h a IH]; simpl; intros Hs; [constructor|].
  apply StronglySorted_inv in Hs. destruct Hs as [Hs Hall].
  constructor; [apply IH, Hs|].
  rewrite Forall_forall in *. intros x Hx. apply Hall, in_or_app. left. exact Hx.
Qed.

Lemma sorted_le_last (l : list Z) (d : Z) :
  StronglySorted Z.lt l -> forall x, In x l -> x <= last l d.
Proof.
  induction 1 as [|a l Hs IH Hall]; intros x Hx; [contradiction|].
  destruct l as [|b l].
  - destruct Hx as [<-|[]]. simpl. lia.
  - change (last (a :: b :: l) d) with (last (b :: l) d).
    destruct Hx as [<-|Hx]; [|apply IH, Hx].
    rewrite Forall_forall in Hall.
    assert (a < b) by (apply Hall; left; reflexivity).
    assert (b <= last (b :: l) d) by (apply IH; left; reflexivity).
    lia.
Qed.

Lemma last_In (l : list Z) (d : Z) : l <> [] -> In (last l d) l.
Proof.
  induction l as [|a l IH]; intros Hne; [congruence|].
  destruct l as [|b l]; [left; reflexivity|].
  right. apply IH. discriminate.
Qed.

Lemma sorted_firstn_In (l : list Z) (k : nat) (q : Z) :
  StronglySorted Z.lt l -> firstn k l <> [] ->
  (In q (firstn k l) <-> In q l /\ q <= last (firstn k l) 0).
Proof.
  intros Hs Hne. rewrite <- (firstn_skipn k l) in Hs.
  split.
  - intros Hq. split.
    + rewrite <- (firstn_skipn k l). apply in_or_app. left. exact Hq.
    + apply sorted_le_last; [apply (sorted_app_l _ _ Hs) | exact Hq].
  - intros [Hq Hle]. rewrite <- (firstn_skipn k l) in Hq.
    apply in_app_or in Hq. destruct Hq as [Hq|Hq]; [exact Hq|].
    assert (last (firstn k l) 0 < q)
      by (apply (sorted_app_lt _ _ Hs); [apply last_In, Hne | exact Hq]).
    lia.
Qed.

(** ** The prime pool of [Cn] *)

(** [pi / k] is computed without an exception and is a finite double. *)
Definition angle_ok (k : Z) : bool :=
  negb (is_inf (of_Z k)) && negb (eqb (of_Z k) zero) && is_finite (pi_over k).

Lemma pool_length : List.length (primerange 2 (2 + 10000)) = 1229%nat.
Proof. vm_compute. reflexivity. Qed.

Lemma pool_angles :
  forallb (fun p => angle_ok p && angle_ok (2 * p)) (primerange 2 (2 + 10000)) = true.
Proof. vm_compute. reflexivity. Qed.

Lemma truediv_int_ok (k : Z) :
  angle_ok k = true -> truediv_int pi k = Ok (pi_over k).
Proof.
  unfold angle_ok, truediv_int, of_int, pi_over. intros H.
  apply andb_true_iff in H. destruct H as [H _].
  apply andb_true_iff in H. destruct H as [Hinf Hz].
  apply negb_true_iff in Hinf, Hz. rewrite Hinf. simpl bind. rewrite Hz. reflexivity.
Qed.

Lemma math_1_finite (func : pyfloat -> pyfloat) (x : pyfloat) :
  is_finite (func x) = true -> Math.math_1 func false x = Ok (func x).
Proof.
  unfold Math.math_1. intros H. destruct (func x); simpl in *; try discriminate; reflexivity.
Qed.

(** ** Python sequences *)

Lemma getitem_of_nat {A : Type} (l : list A) (k : nat) :
  getitem l (Z.of_nat k) =
  match nth_error l k with Some a => Ok a | None => Err IndexError end.
Proof.
  unfold getitem.
  destruct (Z.ltb_spec (Z.of_nat k) 0) as [H|H]; [lia|].
  destruct (Z.ltb_spec (Z.of_nat k) 0) as [H'|H']; [lia|].
  rewrite Nat2Z.id. reflexivity.
Qed.

Lemma skipn_nth_error {A : Type} (l : list A) :
  forall k a, nth_error l k = Some a -> skipn k l = a :: skipn (S k) l.
Proof.
  induction l as [|h l IH]; intros [|k] a H; simpl in H; try discriminate.
  - injection H as ->. reflexivity.
  - apply (IH k a H).
Qed.

(** ** The resonance term and the cascade product *)

Section Cascade.

Variables libm_sin libm_cos : pyfloat -> pyfloat.

(** The C library's sine and cosine of a finite double are finite. *)
Hypothesis libm_sin_finite :
  forall x, is_finite x = true -> is_finite (libm_sin x) = true.
Hypothesis libm_cos_finite :
  forall x, is_finite x = true -> is_finite (libm_cos x) = true.

Let res := R libm_sin libm_cos.
Let cascade := Cn libm_sin libm_cos.
Let loop := Cn_loop libm_sin libm_cos.
Let term := ResonanceTerm libm_sin libm_cos.

Lemma R_ok (z : pyfloat) (p : Z) :
  angle_ok p = true -> angle_ok (2 * p) = true -> res z p = Ok (term p).
Proof using libm_sin_finite libm_cos_finite.
  intros Hp H2p. unfold res, R, term, ResonanceTerm.
  assert (Hf : forall k, angle_ok k = true -> is_finite (pi_over k) = true).
  { intros k Hk. unfold angle_ok in Hk. apply andb_true_iff in Hk. apply Hk. }
  rewrite (truediv_int_ok p Hp), (truediv_int_ok (2 * p) H2p). simpl bind.
  unfold Math.sin, Math.cos.
  rewrite (math_1_finite libm_sin) by (apply libm_sin_finite, Hf, Hp). simpl bind.
  rewrite (math_1_finite libm_cos) by (apply libm_cos_finite, Hf, H2p). reflexivity.
Qed.

Lemma R_ok_pool (z : pyfloat) (p : Z) :
  In p (primerange 2 (2 + 10000)) -> res z p = Ok (term p).
Proof using libm_sin_finite libm_cos_finite.
  intros Hin. assert (H := pool_angles).
  rewrite forallb_forall in H. specialize (H p Hin).
  apply andb_true_iff in H. apply R_ok; apply H.
Qed.

(** The loop, run over the indices [k], ..., [k + m - 1] from a position
    [k] of the list: the terms of the primes at these positions are
    multiplied in from the left, and the first index outside the list
    raises [IndexError]. *)
Lemma Cn_loop_count_from (z : pyfloat) (primes : list Z) :
  (forall p, In p primes -> res z p = Ok (term p)) ->
  forall m k acc, (k <= List.length primes)%nat ->
    loop z primes (count_from m (Z.of_nat k)) acc =
    if (k + m <=? List.length primes)%nat
    then Ok (fold_left (fun a p => mul a (term p)) (firstn m (skipn k primes)) acc)
    else Err IndexError.
Proof using Type.
  intros HR. induction m as [|m IH]; intros k acc Hk.
  - simpl. destruct (Nat.leb_spec (k + 0) (List.length primes)); [reflexivity | lia].
  - simpl count_from. unfold loop. simpl Cn_loop.
    rewrite getitem_of_nat.
    destruct (nth_error primes k) as [p|] eqn:Hnth.
    + assert (Hlt : (k < List.length primes)%nat)
        by (apply nth_error_Some; congruence).
      simpl bind. fold res. rewrite (HR p (nth_error_In _ _ Hnth)). simpl bind.
      replace (Z.of_nat k + 1) with (Z.of_nat (S k)) by lia.
      fold loop. rewrite IH by lia.
      replace (S k + m)%nat with (k + S m)%nat by lia.
      rewrite (skipn_nth_error _ _ _ Hnth). reflexivity.
    + apply nth_error_None in Hnth. simpl bind.
      destruct (Nat.leb_spec (k + S m) (List.length primes)); [lia | reflexivity].
Qed.

Lemma Cn_loop_range (z : pyfloat) (primes : list Z) (n : Z) :
  (forall p, In p primes -> res z p = Ok (term p)) ->
  loop z primes (range n) one =
  if n <=? Z.of_nat (List.length primes)
  then Ok (CascadeProduct libm_sin libm_cos (firstn (Z.to_nat n) primes))
  else Err IndexError.
Proof using Type.
  intros HR. unfold range, interval. rewrite Z.sub_0_r.
  change 0 with (Z.of_nat 0).
  rewrite (Cn_loop_count_from z primes HR (Z.to_nat n) 0 one) by lia.
  simpl skipn. simpl Nat.add.
  destruct (Nat.leb_spec (Z.to_nat n) (List.length primes));
    destruct (Z.leb_spec n (Z.of_nat (List.length primes))); try lia; reflexivity.
Qed.

Lemma Cn_unfold (z : pyfloat) (n : Z) :
  cascade z n =
  if n <=? 1229
  then Ok (CascadeProduct libm_sin libm_cos
             (firstn (Z.to_nat n) (primerange 2 (2 + 10000))))
  else Err IndexError.
Proof using libm_sin_finite libm_cos_finite.
  unfold cascade, Cn. cbv zeta. fold loop.
  rewrite Cn_loop_range by (intros p Hp; apply R_ok_pool, Hp).
  rewrite pool_length. reflexivity.
Qed.

End Cascade.

Lemma Cn_loop_ignores_z (libm_sin libm_cos : pyfloat -> pyfloat)
    (z1 z2 : pyfloat) (primes indices : list Z) :
  forall product,
    Cn_loop libm_sin libm_cos z1 primes indices product =
    Cn_loop libm_sin libm_cos z2 primes indices product.
Proof.
  induction indices as [|i indices IH]; intros product; simpl; [reflexivity|].
  destruct (getitem primes i) as [p|e]; simpl; [|reflexivity].
  change (R libm_sin libm_cos z1 p) with (R libm_sin libm_cos z2 p).
  destruct (R libm_sin libm_cos z2 p) as [r|e]; simpl; [apply IH | reflexivity].
Qed.

Lemma sample_sin_finite :
  forall x, is_finite x = true -> is_finite (SampleLibm.sin x) = true.
Proof. intros x H. exact H. Qed.

Lemma sample_cos_finite :
  forall x, is_finite x = true -> is_finite (SampleLibm.cos x) = true.
Proof. intros x _. reflexivity. Qed.

(** C1.  With a C library whose sine and cosine are finite on finite
    doubles, for every [z] and every [n] from 1 to the size of the prime
    pool, [Cn z n] returns the product, accumulated in double precision
    from 1.0 from the left, of the resonance terms
    sin(pi/p) * cos(pi/(2p)) * sin(pi/p) of the first [n] primes in
    ascending order: the [n] primes taken are strictly increasing and
    are all the primes up to the largest of them, and [R] returns the
    resonance term on each. *)
Theorem Cn_is_cascade_product
    (libm_sin libm_cos : pyfloat -> pyfloat)
    (libm_sin_finite : forall x, is_finite x = true -> is_finite (libm_sin x) = true)
    (libm_cos_finite : forall x, is_finite x = true -> is_finite (libm_cos x) = true)
    (z : pyfloat) (n : Z) :
  1 <= n <= 1229 ->
  let ps := firstn (Z.to_nat n) (primerange 2 (2 + 10000)) in
  Z.of_nat (List.length ps) = n /\
  StronglySorted Z.lt ps /\
  (forall q, In q ps <-> Z.prime q /\ q <= last ps 0) /\
  (forall p, In p ps -> R libm_sin libm_cos z p = Ok (ResonanceTerm libm_sin libm_cos p)) /\
  Cn libm_sin libm_cos z n = Ok (CascadeProduct libm_sin libm_cos ps).
Proof.
  intros Hn ps.
  assert (Hlen : List.length ps = Z.to_nat n).
  { unfold ps. rewrite length_firstn, pool_length. lia. }
  assert (Hne : ps <> []).
  { intros E. rewrite E in Hlen. simpl in Hlen. lia. }
  assert (Hsub : forall q, In q ps -> In q (primerange 2 (2 + 10000))).
  { intros q Hq. rewrite <- (firstn_skipn (Z.to_nat n)). apply in_or_app. left. exact Hq. }
  assert (Hsorted := primerange_sorted 2 (2 + 10000)).
  split; [lia|].
  split; [rewrite <- (firstn_skipn (Z.to_nat n)) in Hsorted;
          apply (sorted_app_l _ _ Hsorted)|].
  split; [|split].
  - intros q. split.
    + intros Hq. split.
      * apply Hsub, primerange_spec in Hq. apply Hq.
      * apply (sorted_firstn_In _ _ _ Hsorted Hne), Hq.
    + intros [Hq Hle]. apply (sorted_firstn_In _ _ _ Hsorted Hne). split; [|exact Hle].
      apply primerange_spec. split; [|exact Hq].
      assert (Hlast := Hsub _ (last_In ps 0 Hne)). apply primerange_spec in Hlast.
      apply Z.prime_ge_2 in Hq. lia.
  - intros p Hp. apply R_ok_pool; auto.
  - rewrite Cn_unfold by assumption.
    destruct (Z.leb_spec n 1229); [reflexivity | lia].
Qed.

Lemma Cn_is_cascade_product_witness :
  1 <= 3 <= 1229 /\
  Cn SampleLibm.sin SampleLibm.cos (Ffinite false (2 ^ 52)%positive (-53)) 3 =
  Ok (CascadeProduct SampleLibm.sin SampleLibm.cos
        (firstn (Z.to_nat 3) (primerange 2 (2 + 10000)))).
Proof.
  assert (H : 1 <= 3 <= 1229) by lia.
  split; [exact H|].
  apply (Cn_is_cascade_product SampleLibm.sin SampleLibm.cos
           sample_sin_finite sample_cos_finite
           (Ffinite false (2 ^ 52)%positive (-53)) 3 H).
Defined.

(** C2.  The resonance term and the cascade product do not depend on
    their first argument: for all [z1], [z2], every [p] and every [n],
    [R z1 p] and [R z2 p] are the same outcome, and so are [Cn z1 n] and
    [Cn z2 n]. *)
Theorem R_and_Cn_independent_of_z
    (libm_sin libm_cos : pyfloat -> pyfloat) (z1 z2 : pyfloat) (p n : Z) :
  R libm_sin libm_cos z1 p = R libm_sin libm_cos z2 p /\
  Cn libm_sin libm_cos z1 n = Cn libm_sin libm_cos z2 n.
Proof.
  split; [reflexivity|]. unfold Cn. apply Cn_loop_ignores_z.
Qed.

(** C3.  The prime pool holds 1229 primes, and for every [z] and every
    [n] above 1229 [Cn z n] raises [IndexError], the exception of the
    lookup [primes[i]] past the end of the pool: no product is returned. *)
Theorem Cn_insufficient_primes
    (libm_sin libm_cos : pyfloat -> pyfloat)
    (libm_sin_finite : forall x, is_finite x = true -> is_finite (libm_sin x) = true)
    (libm_cos_finite : forall x, is_finite x = true -> is_finite (libm_cos x) = true)
    (z : pyfloat) (n : Z) :
  1229 < n ->
  List.length (primerange 2 (2 + 10000)) = 1229%nat /\
  Cn libm_sin libm_cos z n = Err IndexError.
Proof.
  intros Hn. split; [apply pool_length|].
  rewrite Cn_unfold by assumption.
  destruct (Z.leb_spec n 1229); [lia | reflexivity].
Qed.

Lemma Cn_insufficient_primes_witness :
  1229 < 1230 /\
  Cn SampleLibm.sin SampleLibm.cos one 1230 = Err IndexError.
Proof.
  assert (H : 1229 < 1230) by lia.
  split; [exact H|].
  apply (Cn_insufficient_primes SampleLibm.sin SampleLibm.cos
           sample_sin_finite sample_cos_finite one 1230 H).
Defined.

(** C10.  For every [z], [Cn z 0] raises nothing and returns exactly 1.0,
    the empty product. *)
Theorem Cn_zero_is_one (libm_sin libm_cos : pyfloat -> pyfloat) (z : pyfloat) :
  Cn libm_sin libm_cos z 0 = Ok one /\
  one = Ffinite false 4503599627370496%positive (-52).
Proof. split; reflexivity. Qed.

(** ** Bit strings *)

Lemma bits_be_length (w : nat) (v : Z) : List.length (bits_be w v) = w.
Proof. induction w as [|w IH]; simpl; [reflexivity | rewrite IH; reflexivity]. Qed.

Lemma bits_be_binary (w : nat) (v : Z) :
  Forall (fun c => c = "0"%char \/ c = "1"%char) (bits_be w v).
Proof.
  induction w as [|w IH]; simpl; constructor; [|exact IH].
  destruct (Z.testbit v (Z.of_nat w)); simpl; auto.
Qed.

(** Appending a low bit shifts the digits to the left. *)
Lemma bits_be_double (b : bool) (v : Z) :
  forall w, bits_be (S w) (2 * v + Z.b2z b) = bits_be w v ++ [bit_char b].
Proof.
  induction w as [|w IH].
  - cbn [bits_be app]. change (Z.of_nat 0) with 0. rewrite Z.testbit_0_r. reflexivity.
  - change (bits_be (S (S w)) (2 * v + Z.b2z b)) with
      (bit_char (Z.testbit (2 * v + Z.b2z b) (Z.of_nat (S w)))
         :: bits_be (S w) (2 * v + Z.b2z b)).
    rewrite IH. rewrite Nat2Z.inj_succ, Z.testbit_succ_r by lia. reflexivity.
Qed.

Lemma bin_pos_bits_be :
  forall p acc,
    Struct.bin_pos p acc = bits_be (Pos.size_nat p) (Z.pos p) ++ acc.
Proof.
  induction p as [p IH|p IH|]; intros acc; simpl Struct.bin_pos; simpl Pos.size_nat.
  - rewrite IH. change (Z.pos p~1) with (2 * Z.pos p + Z.b2z true).
    rewrite bits_be_double, <- app_assoc. reflexivity.
  - rewrite IH. replace (Z.pos p~0) with (2 * Z.pos p + Z.b2z false) by (simpl; lia).
    rewrite bits_be_double, <- app_assoc. reflexivity.
  - reflexivity.
Qed.

(** The digits only depend on the low [w] bits. *)
Lemma bits_be_low (b : nat) (hi lo : Z) :
  forall w, (w <= b)%nat ->
    bits_be w (hi * 2 ^ Z.of_nat b + lo) = bits_be w lo.
Proof.
  induction w as [|w IH]; intros Hw; cbn [bits_be]; [reflexivity|].
  rewrite IH by lia. f_equal. f_equal.
  rewrite <- (Z.mod_pow2_bits_low (hi * 2 ^ Z.of_nat b + lo) (Z.of_nat b)) by lia.
  rewrite <- (Z.mod_pow2_bits_low lo (Z.of_nat b) (Z.of_nat w)) by lia.
  f_equal. rewrite Z.add_comm, Z.mod_add by lia. reflexivity.
Qed.

(** The digits of a number split into those of its high and low parts. *)
Lemma bits_be_app (b : nat) (hi lo : Z) :
  0 <= lo < 2 ^ Z.of_nat b ->
  forall a, bits_be (a + b) (hi * 2 ^ Z.of_nat b + lo) = bits_be a hi ++ bits_be b lo.
Proof.
  intros Hlo. induction a as [|a IH].
  - cbn [bits_be app Nat.add]. apply bits_be_low. lia.
  - cbn [bits_be app Nat.add]. rewrite IH. f_equal. f_equal.
    replace (Z.of_nat (a + b)) with (Z.of_nat a + Z.of_nat b) by lia.
    rewrite <- Z.div_pow2_bits by lia.
    f_equal. rewrite (Z.add_comm (hi * _)), Z.div_add by lia.
    rewrite Z.div_small by lia. lia.
Qed.

Lemma bits_be_zero (w : nat) : bits_be w 0 = repeat "0"%char w.
Proof.
  induction w as [|w IH]; simpl; [reflexivity|].
  rewrite Z.testbit_0_l, IH. reflexivity.
Qed.

Lemma size_nat_bound (p : positive) (w : nat) :
  Z.pos p < 2 ^ Z.of_nat w -> (Pos.size_nat p <= w)%nat.
Proof.
  revert w. induction p as [p IH|p IH|]; intros [|w] H; simpl Pos.size_nat;
    try (simpl in H; lia);
    try (apply le_n_S, IH; rewrite Nat2Z.inj_succ, Z.pow_succ_r in H by lia; lia).
Qed.

Lemma size_nat_lt (p : positive) : Z.pos p < 2 ^ Z.of_nat (Pos.size_nat p).
Proof.
  induction p as [p IH|p IH|]; simpl Pos.size_nat;
    rewrite ?Nat2Z.inj_succ, ?Z.pow_succ_r by lia; try lia.
Qed.

(** Formatting with a width of 64 gives the 64 low bits. *)
Lemma format_064b_bits_be (d : Z) :
  0 <= d < 2 ^ 64 -> Struct.format_064b d = bits_be 64 d.
Proof.
  intros Hd. unfold Struct.format_064b.
  destruct d as [|p|p]; [reflexivity | | lia].
  rewrite bin_pos_bits_be, app_nil_r, bits_be_length.
  change (List.length (@nil ascii)) with 0%nat. rewrite Nat.sub_0_r, app_nil_l.
  assert (Hs : (Pos.size_nat p <= 64)%nat) by (apply size_nat_bound; simpl; lia).
  rewrite <- bits_be_zero.
  rewrite <- (bits_be_app (Pos.size_nat p) 0 (Z.pos p)) by (split; [lia | apply size_nat_lt]).
  f_equal. lia.
Qed.

(** ** The binary64 fields *)

Lemma digits2_pos_bounds (m : positive) :
  2 ^ (Z.pos (digits2_pos m) - 1) <= Z.pos m < 2 ^ Z.pos (digits2_pos m).
Proof.
  induction m as [m IH|m IH|]; cbn [digits2_pos]; [| |simpl; lia].
  - rewrite Pos2Z.inj_succ. replace (Z.succ (Z.pos (digits2_pos m)) - 1)
      with (Z.succ (Z.pos (digits2_pos m) - 1)) by lia.
    rewrite !Z.pow_succ_r by lia. lia.
  - rewrite Pos2Z.inj_succ. replace (Z.succ (Z.pos (digits2_pos m)) - 1)
      with (Z.succ (Z.pos (digits2_pos m) - 1)) by lia.
    rewrite !Z.pow_succ_r by lia. lia.
Qed.

(** A well-formed finite double is either subnormal, with the least
    exponent, or has a significand of exactly 53 bits. *)
Lemma bounded_cases (m : positive) (e : Z) :
  bounded prec emax m e = true ->
  (Z.pos m < 2 ^ 52 /\ e = -1074) \/
  (2 ^ 52 <= Z.pos m < 2 ^ 53 /\ -1074 <= e <= 971).
Proof.
  unfold bounded, canonical_mantissa, fexp, SpecFloat.emin, prec, emax.
  rewrite andb_true_iff, Z.eqb_eq, Z.leb_le. intros [Hc He].
  assert (Hd := digits2_pos_bounds m).
  set (d := Z.pos (digits2_pos m)) in *.
  assert (Hdpos : 0 < d) by (unfold d; lia).
  destruct (Z.le_gt_cases d 52) as [Hle|Hgt].
  - left. split; [|lia].
    apply Z.lt_le_trans with (2 ^ d); [lia|]. apply Z.pow_le_mono_r; lia.
  - right. assert (d = 53) by lia. split; [|lia].
    replace 52 with (d - 1) by lia. replace 53 with d by lia. exact Hd.
Qed.

Lemma fields_range (x : pyfloat) :
  wf x = true ->
  0 <= Struct.exponent x < 2 ^ 11 /\ 0 <= Struct.mantissa x < 2 ^ 52.
Proof.
  destruct x as [s|s|s pl|s m e]; simpl wf; intros H;
    cbn [Struct.exponent Struct.mantissa].
  - split; simpl; lia.
  - split; simpl; lia.
  - apply Z.ltb_lt in H. split; [simpl|]; lia.
  - destruct (bounded_cases m e H) as [[Hm He]|[Hm He]].
    + destruct (Z.ltb_spec (Z.pos m) (2 ^ 52)); [|lia]. split; [simpl|]; lia.
    + destruct (Z.ltb_spec (Z.pos m) (2 ^ 52)); [lia|].
      change (2 ^ 53) with (2 * 2 ^ 52) in Hm. split; [simpl|]; lia.
Qed.

(** What the fields of a well-formed finite double say of its value
    [m * 2 ^ e]: a zero exponent field is a subnormal number, and any
    other one carries a bias of 1075 and an implicit leading bit. *)
Lemma fields_of_finite (s : bool) (m : positive) (e : Z) :
  wf (Ffinite s m e) = true ->
  Struct.sign (Ffinite s m e) = s /\
  (if Struct.exponent (Ffinite s m e) =? 0
   then Z.pos m = Struct.mantissa (Ffinite s m e) /\ e = -1074
   else Z.pos m = 2 ^ 52 + Struct.mantissa (Ffinite s m e) /\
        e = Struct.exponent (Ffinite s m e) - 1075).
Proof.
  intros H. split; [reflexivity|]. simpl in H.
  cbn [Struct.exponent Struct.mantissa].
  destruct (bounded_cases m e H) as [[Hm He]|[Hm He]];
    destruct (Z.ltb_spec (Z.pos m) (2 ^ 52)); try lia.
  - simpl. lia.
  - destruct (Z.eqb_spec (e + 1075) 0); lia.
Qed.

Lemma bits_range (x : pyfloat) : wf x = true -> 0 <= Struct.bits x < 2 ^ 64.
Proof.
  intros H. destruct (fields_range x H) as [He Hm]. unfold Struct.bits.
  change (2 ^ 64) with (2 * 2 ^ 63). change (2 ^ 63) with (2 ^ 11 * 2 ^ 52).
  destruct (Struct.sign x); simpl Z.b2z; nia.
Qed.

(** ** Packing and unpacking *)

Lemma unpack_pack (x : pyfloat) :
  Struct.unpack_Q (Struct.pack_d x) = Ok (Struct.bits x mod 2 ^ 64).
Proof.
  unfold Struct.unpack_Q, Struct.pack_d.
  cbn [map List.length Nat.eqb fold_left].
  f_equal. generalize (Struct.bits x). intros v.
  change 255 with (Z.ones 8).
  rewrite !Z.land_ones, !Z.shiftr_div_pow2 by lia.
  change (2 ^ 64) with 18446744073709551616.
  change (8 * 7) with 56. change (8 * 6) with 48. change (8 * 5) with 40.
  change (8 * 4) with 32. change (8 * 3) with 24. change (8 * 2) with 16.
  change (8 * 1) with 8. change (8 * 0) with 0.
  change (2 ^ 56) with 72057594037927936. change (2 ^ 48) with 281474976710656.
  change (2 ^ 40) with 1099511627776. change (2 ^ 32) with 4294967296.
  change (2 ^ 24) with 16777216. change (2 ^ 16) with 65536.
  change (2 ^ 8) with 256. change (2 ^ 0) with 1.
  Z.div_mod_to_equations. lia.
Qed.

(** ** The codec *)

(** The encoding is always produced, and is the 64 low bits of the
    pattern, the most significant first. *)
Lemma float_to_bin64_bits (x : pyfloat) :
  float_to_bin64 x = Ok (bits_be 64 (Struct.bits x)).
Proof.
  unfold float_to_bin64. rewrite unpack_pack. cbn [bind]. f_equal.
  rewrite format_064b_bits_be by (apply Z.mod_pos_bound; reflexivity).
  rewrite (Z.div_mod (Struct.bits x) (2 ^ 64)) at 2 by (intros E; discriminate E).
  rewrite (Z.mul_comm (2 ^ 64)). symmetry.
  apply (bits_be_low 64 _ _ 64). lia.
Qed.

Lemma bits_be_1 (b : bool) : bits_be 1 (Z.b2z b) = [bit_char b].
Proof. destruct b; reflexivity. Qed.

(** C8.  For every binary64 value [x], a zero, an infinity, a NaN or a
    finite double, [float_to_bin64 x] raises nothing and returns a string
    of exactly 64 characters, each '0' or '1': the sign bit, then the 11
    bits of the exponent field, then the 52 bits of the mantissa field,
    each field with its most significant bit first; it is the 64-bit
    pattern of [x] written in binary from its most significant bit. *)
Theorem float_to_bin64_layout (x : pyfloat) :
  wf x = true ->
  exists s,
    float_to_bin64 x = Ok s /\
    List.length s = 64%nat /\
    Forall binary_digit s /\
    s = bit_char (Struct.sign x)
          :: bits_be 11 (Struct.exponent x) ++ bits_be 52 (Struct.mantissa x) /\
    0 <= Struct.exponent x < 2 ^ 11 /\
    0 <= Struct.mantissa x < 2 ^ 52 /\
    s = bits_be 64 (Struct.bits x).
Proof.
  intros Hwf. exists (bits_be 64 (Struct.bits x)).
  destruct (fields_range x Hwf) as [He Hm].
  split; [apply float_to_bin64_bits|].
  split; [apply bits_be_length|].
  split; [apply bits_be_binary|].
  split; [|split; [exact He | split; [exact Hm | reflexivity]]].
  unfold Struct.bits.
  replace (Z.b2z (Struct.sign x) * 2 ^ 63 + Struct.exponent x * 2 ^ 52)
    with ((Z.b2z (Struct.sign x) * 2 ^ Z.of_nat 11 + Struct.exponent x) * 2 ^ Z.of_nat 52)
    by (change (2 ^ 63) with (2 ^ 11 * 2 ^ 52); simpl Z.of_nat; ring).
  rewrite (bits_be_app 52 _ _ Hm 12).
  rewrite (bits_be_app 11 _ _ He 1), bits_be_1. reflexivity.
Qed.

Lemma float_to_bin64_layout_witness :
  wf pi = true /\
  exists s,
    float_to_bin64 pi = Ok s /\
    List.length s = 64%nat /\
    Forall binary_digit s /\
    s = bit_char (Struct.sign pi)
          :: bits_be 11 (Struct.exponent pi) ++ bits_be 52 (Struct.mantissa pi) /\
    0 <= Struct.exponent pi < 2 ^ 11 /\
    0 <= Struct.mantissa pi < 2 ^ 52 /\
    s = bits_be 64 (Struct.bits pi).
Proof.
  assert (H : wf pi = true) by reflexivity.
  split; [exact H | exact (float_to_bin64_layout pi H)].
Defined.

(** ** The bit comparators *)

Lemma bins_of_map (xs : list pyfloat) :
  bins_of xs = Ok (map (fun x => bits_be 64 (Struct.bits x)) xs).
Proof.
  induction xs as [|x xs IH]; [reflexivity|].
  cbn [bins_of map]. rewrite float_to_bin64_bits, IH. reflexivity.
Qed.

Lemma subsequence_map {A B : Type} (f : A -> B) (ys xs : list A) :
  subsequence ys xs -> subsequence (map f ys) (map f xs).
Proof. induction 1; cbn [map]; constructor; assumption. Qed.

Lemma subsequence_In {A : Type} (ys xs : list A) :
  subsequence ys xs -> forall a, In a ys -> In a xs.
Proof.
  induction 1 as [|x ys xs _ IH|x ys xs _ IH]; intros a Ha.
  - exact Ha.
  - right. apply IH, Ha.
  - destruct Ha as [<-|Ha]; [left; reflexivity | right; apply IH, Ha].
Qed.

Lemma subsequence_refl {A : Type} (l : list A) : subsequence l l.
Proof. induction l; constructor; assumption. Qed.

Lemma subsequence_app_r {A : Type} (l : list A) (a : A) : subsequence l (l ++ [a]).
Proof.
  induction l as [|h l IH]; cbn [app].
  - apply subsequence_skip, subsequence_nil.
  - apply subsequence_take, IH.
Qed.

Lemma all_equal_first_iff (bits : list ascii) :
  all_equal_first bits = true <-> forall a b, In a bits -> In b bits -> a = b.
Proof.
  destruct bits as [|b0 bits]; [split; [intros _ a b [] | reflexivity]|].
  unfold all_equal_first. rewrite forallb_forall. split.
  - intros H a b Ha Hb.
    apply H, Ascii.eqb_eq in Ha. apply H, Ascii.eqb_eq in Hb. congruence.
  - intros H b Hb. apply Ascii.eqb_eq, H; [exact Hb | left; reflexivity].
Qed.

Lemma all_equal_first_subsequence (hs' hs : list ascii) :
  subsequence hs' hs -> all_equal_first hs = true -> all_equal_first hs' = true.
Proof.
  intros Hsub. rewrite !all_equal_first_iff. intros H a b Ha Hb.
  apply H; apply (subsequence_In _ _ Hsub); assumption.
Qed.

Lemma heads_tails_subsequence (ts ss : list str) :
  subsequence ts ss ->
  forall hs tl, heads_tails ss = Some (hs, tl) ->
  exists hs' tl',
    heads_tails ts = Some (hs', tl') /\ subsequence hs' hs /\ subsequence tl' tl.
Proof.
  induction 1 as [|s ts ss _ IH|s ts ss _ IH]; intros hs tl Hht.
  - injection Hht as <- <-. exists [], []. repeat split; constructor.
  - cbn [heads_tails] in Hht. destruct s as [|c s]; [discriminate|].
    destruct (heads_tails ss) as [[hs0 tl0]|]; [|discriminate].
    injection Hht as <- <-.
    destruct (IH hs0 tl0 eq_refl) as (hs' & tl' & H1 & H2 & H3).
    exists hs', tl'. repeat split; [exact H1 | |]; constructor; assumption.
  - cbn [heads_tails] in Hht |- *. destruct s as [|c s]; [discriminate|].
    destruct (heads_tails ss) as [[hs0 tl0]|]; [|discriminate].
    injection Hht as <- <-.
    destruct (IH hs0 tl0 eq_refl) as (hs' & tl' & H1 & H2 & H3).
    rewrite H1. exists (c :: hs'), (s :: tl'). repeat split; constructor; assumption.
Qed.

Lemma heads_tails_length (ss : list str) :
  forall hs tl, heads_tails ss = Some (hs, tl) -> List.length tl = List.length ss.
Proof.
  induction ss as [|s ss IH]; intros hs tl H; cbn [heads_tails] in H.
  - injection H as <- <-. reflexivity.
  - destruct s as [|c s]; [discriminate|].
    destruct (heads_tails ss) as [[hs0 tl0]|]; [|discriminate].
    injection H as <- <-. cbn [List.length]. rewrite (IH hs0 tl0 eq_refl). reflexivity.
Qed.

(** The columns of a non-empty list of strings, one step at a time. *)
Lemma zip_star_step (ss : list str) :
  ss <> [] ->
  zip_star ss =
  match heads_tails ss with
  | Some (hs, tl) => hs :: zip_star tl
  | None => []
  end.
Proof.
  destruct ss as [|s ss]; [congruence|]. intros _.
  cbn [zip_star heads_tails]. destruct s as [|c s]; [reflexivity|].
  cbn [zip_from]. destruct (heads_tails ss) as [[hs tl]|]; reflexivity.
Qed.

Lemma prefix_loop_acc (columns : list (list ascii)) :
  forall acc, prefix_loop columns acc = acc + prefix_loop columns 0.
Proof.
  induction columns as [|bits columns IH]; intros acc; cbn [prefix_loop]; [lia|].
  destruct (all_equal_first bits); [|lia].
  rewrite (IH (acc + 1)), (IH (0 + 1)). lia.
Qed.

Lemma prefix_loop_nonneg (columns : list (list ascii)) : 0 <= prefix_loop columns 0.
Proof.
  induction columns as [|bits columns IH]; cbn [prefix_loop]; [lia|].
  destruct (all_equal_first bits); [|lia].
  rewrite prefix_loop_acc. lia.
Qed.

(** Leaving strings out cannot shorten the common prefix. *)
Lemma prefix_subsequence :
  forall (n : nat) (ts ss : list str),
    subsequence ts ss -> ts <> [] ->
    Z.of_nat n <= prefix_loop (zip_star ss) 0 ->
    Z.of_nat n <= prefix_loop (zip_star ts) 0.
Proof.
  induction n as [|n IH]; intros ts ss Hsub Hne Hn.
  - apply prefix_loop_nonneg.
  - assert (Hss : ss <> []).
    { intros ->. inversion Hsub. congruence. }
    rewrite (zip_star_step ss Hss) in Hn. rewrite (zip_star_step ts Hne).
    destruct (heads_tails ss) as [[hs tl]|] eqn:Hht; [|cbn [prefix_loop] in Hn; lia].
    destruct (heads_tails_subsequence ts ss Hsub hs tl Hht) as (hs' & tl' & H1 & H2 & H3).
    rewrite H1. cbn [prefix_loop] in Hn |- *.
    destruct (all_equal_first hs) eqn:Hall; [|lia].
    rewrite (all_equal_first_subsequence hs' hs H2 Hall).
    rewrite prefix_loop_acc in Hn. rewrite prefix_loop_acc.
    assert (Htl' : tl' <> []).
    { intros ->. apply heads_tails_length in H1. destruct ts; [congruence | discriminate]. }
    specialize (IH tl' tl H3 Htl'). lia.
Qed.

Lemma common_bit_prefix_eq (xs : list pyfloat) :
  common_bit_prefix xs =
  Ok (prefix_loop (zip_star (map (fun x => bits_be 64 (Struct.bits x)) xs)) 0).
Proof. unfold common_bit_prefix. rewrite bins_of_map. reflexivity. Qed.

(** C9.  Leaving values out of a sequence never decreases the common
    prefix length: for every sequence [xs] and every non-empty
    subsequence [ys] of it, both calls return and the result on [xs] is
    at most the result on [ys]; in particular the result on [ys] with a
    value appended is at most the result on [ys]. *)
Theorem common_bit_prefix_antitone (xs ys : list pyfloat) :
  subsequence ys xs -> ys <> [] ->
  exists a b,
    common_bit_prefix xs = Ok a /\
    common_bit_prefix ys = Ok b /\
    a <= b /\
    forall v, exists c, common_bit_prefix (ys ++ [v]) = Ok c /\ c <= b.
Proof.
  intros Hsub Hne.
  assert (Hmono : forall us vs : list pyfloat, subsequence vs us -> vs <> [] ->
            prefix_loop (zip_star (map (fun x => bits_be 64 (Struct.bits x)) us)) 0 <=
            prefix_loop (zip_star (map (fun x => bits_be 64 (Struct.bits x)) vs)) 0).
  { intros us vs Hs Hv.
    set (f := fun x => bits_be 64 (Struct.bits x)).
    assert (H0 := prefix_loop_nonneg (zip_star (map f us))).
    rewrite <- (Z2Nat.id _ H0) at 1.
    apply (prefix_subsequence _ (map f vs) (map f us)).
    - apply subsequence_map, Hs.
    - destruct vs; [congruence | discriminate].
    - rewrite Z2Nat.id by exact H0. lia. }
  eexists. eexists.
  split; [apply common_bit_prefix_eq|].
  split; [apply common_bit_prefix_eq|].
  split; [apply Hmono; assumption|].
  intros v. eexists. split; [apply common_bit_prefix_eq|].
  apply Hmono; [apply subsequence_app_r | exact Hne].
Qed.

Lemma common_bit_prefix_antitone_witness :
  subsequence [one; pi] [one; neg_zero; pi] /\ [one; pi] <> [] /\
  exists a b,
    common_bit_prefix [one; neg_zero; pi] = Ok a /\
    common_bit_prefix [one; pi] = Ok b /\
    a <= b /\
    forall v, exists c, common_bit_prefix ([one; pi] ++ [v]) = Ok c /\ c <= b.
Proof.
  assert (Hs : subsequence [one; pi] [one; neg_zero; pi])
    by (apply subsequence_take, subsequence_skip, subsequence_take, subsequence_nil).
  assert (Hne : [one; pi] <> []) by discriminate.
  split; [exact Hs|]. split; [exact Hne|].
  exact (common_bit_prefix_antitone [one; neg_zero; pi] [one; pi] Hs Hne).
Defined.

(** C4, as the code has it.  On an empty sequence [common_bit_prefix]
    raises no exception: it returns 0. *)
Theorem common_bit_prefix_empty :
  common_bit_prefix [] = Ok 0 /\ forall e, common_bit_prefix [] <> Err e.
Proof. split; [reflexivity | intros e H; discriminate H]. Qed.

(** C4 as stated fails: the call on the empty sequence returns. *)
Lemma common_bit_prefix_empty_returns :
  exists k, common_bit_prefix [] = Ok k.
Proof. exists 0. reflexivity. Qed.

(** ** Hamming distance *)

Lemma Ok_inj {A : Type} (a b : A) : Ok a = Ok b -> a = b.
Proof. intros H. injection H as H. exact H. Qed.

Lemma sum_acc (l : list Z) : forall a, fold_left Z.add l a = a + sum l.
Proof.
  unfold sum. induction l as [|h l IH]; intros a; cbn [fold_left]; [lia|].
  rewrite (IH (a + h)), (IH (0 + h)). lia.
Qed.

Lemma differences_nonneg (l1 : list ascii) :
  forall l2,
    0 <= sum (map (fun '(b1, b2) => Z.b2z (negb (Ascii.eqb b1 b2))) (combine l1 l2)).
Proof.
  induction l1 as [|a l1 IH]; intros [|b l2]; cbn [combine map]; try (unfold sum; simpl; lia).
  unfold sum. cbn [fold_left]. rewrite sum_acc.
  specialize (IH l2). destruct (Ascii.eqb a b); simpl Z.b2z; lia.
Qed.

(** Two strings of the same length differ nowhere exactly when they are
    equal. *)
Lemma differences_zero_iff (l1 : list ascii) :
  forall l2, List.length l1 = List.length l2 ->
    (sum (map (fun '(b1, b2) => Z.b2z (negb (Ascii.eqb b1 b2))) (combine l1 l2)) = 0
     <-> l1 = l2).
Proof.
  induction l1 as [|a l1 IH]; intros [|b l2] Hlen; try discriminate Hlen.
  - split; reflexivity.
  - injection Hlen as Hlen. cbn [combine map]. unfold sum. cbn [fold_left].
    rewrite sum_acc. specialize (IH l2 Hlen).
    assert (H0 := differences_nonneg l1 l2).
    destruct (Ascii.eqb_spec a b) as [->|Hab]; simpl Z.b2z.
    + rewrite Z.add_0_l, IH. split; [intros ->; reflexivity | intros H; injection H; auto].
    + split; [lia | intros H; injection H; intros; contradiction].
Qed.

Lemma hamming_distance_eq (x y : pyfloat) :
  hamming_distance x y =
  Ok (sum (map (fun '(b1, b2) => Z.b2z (negb (Ascii.eqb b1 b2)))
             (combine (bits_be 64 (Struct.bits x)) (bits_be 64 (Struct.bits y))))).
Proof. unfold hamming_distance. rewrite !float_to_bin64_bits. reflexivity. Qed.

(** C5, as the code has it.  [hamming_distance x y] is 0 exactly when the
    encodings of [x] and [y] are the same string; +0.0 and -0.0 differ in
    the sign bit only, and their distance is 1. *)
Theorem hamming_distance_zero_iff (x y : pyfloat) :
  (hamming_distance x y = Ok 0 <-> float_to_bin64 x = float_to_bin64 y) /\
  hamming_distance zero neg_zero = Ok 1.
Proof.
  split; [|vm_compute; reflexivity].
  rewrite hamming_distance_eq, !float_to_bin64_bits.
  assert (Hlen : List.length (bits_be 64 (Struct.bits x)) =
                 List.length (bits_be 64 (Struct.bits y)))
    by (rewrite !bits_be_length; reflexivity).
  generalize dependent (bits_be 64 (Struct.bits y)).
  generalize (bits_be 64 (Struct.bits x)). intros bx by_ Hlen.
  split; intros H; apply Ok_inj in H; f_equal;
    apply (differences_zero_iff _ _ Hlen), H.
Qed.

(** C5 as stated fails: the distance between +0.0 and -0.0 is not 64. *)
Lemma hamming_distance_signed_zeros :
  hamming_distance zero neg_zero = Ok 1 /\ hamming_distance zero neg_zero <> Ok 64.
Proof.
  assert (E : hamming_distance zero neg_zero = Ok 1) by (vm_compute; reflexivity).
  split; [exact E | rewrite E; intros H; discriminate H].
Qed.

(** ** The stability predictor *)

(** A rounded result carries the sign it was given. *)
Lemma binary_round_aux_sign (s : bool) (m e : Z) (l : location) :
  let r := binary_round_aux prec emax s m e l in
  r = S754_zero s \/ r = S754_infinity s \/ r = S754_nan \/
  exists m' e', r = S754_finite s m' e'.
Proof.
  unfold binary_round_aux.
  destruct (shr_fexp prec emax m e l) as [mrs e1].
  destruct (shr_fexp prec emax _ e1 loc_Exact) as [mrs' e2].
  destruct (shr_m mrs') as [|p|p]; cbv zeta.
  - left. reflexivity.
  - destruct (e2 <=? emax - prec); [|right; left; reflexivity].
    right. right. right. exists p, e2. reflexivity.
  - right. right. left. reflexivity.
Qed.

Lemma of_int_1 : of_int 1 = Ok one.
Proof. vm_compute. reflexivity. Qed.

(** The reciprocal of a non-zero double is computed without an exception. *)
Lemma int_truediv_1 (x : pyfloat) :
  eqb x zero = false -> int_truediv 1 x = Ok (div one x).
Proof. intros H. unfold int_truediv. rewrite of_int_1. cbn [bind]. rewrite H. reflexivity. Qed.

(** What is below zero: minus infinity and the negative finite doubles. *)
Lemma ltb_zero_cases (x : pyfloat) :
  ltb x zero = true -> x = Finf true \/ exists m e, x = Ffinite true m e.
Proof.
  destruct x as [s|[|]|s pl|[|] m e]; cbn; intros H; try discriminate H.
  - left. reflexivity.
  - right. exists m, e. reflexivity.
Qed.

Section Predictor.

Variable libm_log2 : pyfloat -> pyfloat.

Let law := empirical_stability_law libm_log2.

(** The logarithm of a zero, of a negative number or of minus infinity
    is a domain error, and a NaN goes through to [math.floor], which
    rejects it. *)
Lemma log2_floor_not_positive (q : pyfloat) :
  q = Fzero true \/ q = Finf true \/ q = Math.nan \/
  (exists m e, q = Ffinite true m e) ->
  (l <- Math.log2 libm_log2 q ;; f <- Float.floor l ;; Ok (64 - f)) = Err ValueError.
Proof using Type.
  intros [->|[->|[->|(m & e & ->)]]]; reflexivity.
Qed.

Lemma law_negative (epsilon : pyfloat) :
  ltb epsilon zero = true -> law epsilon = Err ValueError.
Proof using Type.
  intros Hlt. unfold law, empirical_stability_law.
  destruct (ltb_zero_cases epsilon Hlt) as [->|(m & e & ->)].
  - reflexivity.
  - change (eqb (Ffinite true m e) zero) with false. cbv iota.
    rewrite int_truediv_1 by reflexivity. cbn [bind].
    apply log2_floor_not_positive.
    unfold div, one. cbn [to_SF SFdiv].
    destruct (SFdiv_core_binary prec emax _ _ _ _) as [[mz ez] lz].
    change (xorb false true) with true.
    destruct (binary_round_aux_sign true mz ez lz) as [E|[E|[E|(m' & e' & E)]]];
      rewrite E; cbn [of_SF]; eauto 6.
Qed.

(** A positive finite reciprocal with a finite logarithm. *)
Lemma law_positive (epsilon : pyfloat) :
  eqb epsilon zero = false ->
  is_finite (div one epsilon) = true ->
  ltb zero (div one epsilon) = true ->
  is_finite (libm_log2 (div one epsilon)) = true ->
  exists f,
    Float.floor (libm_log2 (div one epsilon)) = Ok f /\ law epsilon = Ok (64 - f).
Proof using Type.
  intros Hz Hfin Hpos Hlog. unfold law, empirical_stability_law.
  rewrite Hz, int_truediv_1 by exact Hz. cbn [bind].
  destruct (div one epsilon) as [s|s|s pl|[|] m e] eqn:Hq; try discriminate.
  unfold Math.log2. rewrite math_1_finite by exact Hlog. cbn [bind Math.m_log2].
  destruct (libm_log2 (Ffinite false m e)) as [s|s|s pl|s m' e']; try discriminate Hlog.
  - exists 0. split; reflexivity.
  - eexists. split; reflexivity.
Qed.

(** A reciprocal that overflows to infinity makes [math.floor] fail. *)
Lemma law_overflow (epsilon : pyfloat) :
  eqb epsilon zero = false -> div one epsilon = Finf false ->
  law epsilon = Err OverflowError.
Proof using Type.
  intros Hz Hq. unfold law, empirical_stability_law.
  rewrite Hz, int_truediv_1 by exact Hz. cbn [bind]. rewrite Hq. reflexivity.
Qed.

End Predictor.

(** C6, as the code has it.  For every [epsilon >= 0]: when
    [epsilon == 0] the predictor returns exactly 64; otherwise, when the
    double [1 / epsilon] is a positive finite number, which leaves out an
    infinite [epsilon] and the subnormal ones whose reciprocal overflows,
    and its base-2 logarithm is finite, the predictor returns
    [64 - floor(log2(1 / epsilon))], an integer that is not clamped. *)
Theorem empirical_stability_law_nonnegative
    (libm_log2 : pyfloat -> pyfloat) (epsilon : pyfloat) :
  leb zero epsilon = true ->
  (eqb epsilon zero = true -> empirical_stability_law libm_log2 epsilon = Ok 64) /\
  (eqb epsilon zero = false ->
   is_finite (div one epsilon) = true ->
   ltb zero (div one epsilon) = true ->
   is_finite (libm_log2 (div one epsilon)) = true ->
   exists f,
     Float.floor (libm_log2 (div one epsilon)) = Ok f /\
     empirical_stability_law libm_log2 epsilon = Ok (64 - f)).
Proof.
  intros _. split.
  - intros Hz. unfold empirical_stability_law. rewrite Hz. reflexivity.
  - apply law_positive.
Qed.

Lemma empirical_stability_law_nonnegative_witness :
  let epsilon := Ffinite false (2 ^ 52)%positive (-72) in
  leb zero epsilon = true /\
  eqb epsilon zero = false /\
  is_finite (div one epsilon) = true /\
  ltb zero (div one epsilon) = true /\
  is_finite (SampleLibm.log2 (div one epsilon)) = true /\
  exists f,
    Float.floor (SampleLibm.log2 (div one epsilon)) = Ok f /\
    empirical_stability_law SampleLibm.log2 epsilon = Ok (64 - f).
Proof.
  intros epsilon.
  assert (H0 : leb zero epsilon = true) by (vm_compute; reflexivity).
  assert (H1 : eqb epsilon zero = false) by (vm_compute; reflexivity).
  assert (H2 : is_finite (div one epsilon) = true) by (vm_compute; reflexivity).
  assert (H3 : ltb zero (div one epsilon) = true) by (vm_compute; reflexivity).
  assert (H4 : is_finite (SampleLibm.log2 (div one epsilon)) = true)
    by (vm_compute; reflexivity).
  repeat (split; [assumption|]).
  exact (proj2 (empirical_stability_law_nonnegative SampleLibm.log2 epsilon H0)
           H1 H2 H3 H4).
Defined.

(** C6 as stated fails: the smallest positive double is a non-negative
    [epsilon] on which the predictor raises [OverflowError], and so is
    plus infinity, on which it raises [ValueError]. *)
Lemma empirical_stability_law_extremes :
  leb zero min_subnormal = true /\
  empirical_stability_law SampleLibm.log2 min_subnormal = Err OverflowError /\
  leb zero inf = true /\
  empirical_stability_law SampleLibm.log2 inf = Err ValueError.
Proof. repeat split; vm_compute; reflexivity. Qed.

(** C7.  For every strictly negative [epsilon] the predictor raises
    [ValueError], the domain error of [math.log2]; -1.0 is one of them. *)
Theorem empirical_stability_law_negative
    (libm_log2 : pyfloat -> pyfloat) (epsilon : pyfloat) :
  ltb epsilon zero = true ->
  empirical_stability_law libm_log2 epsilon = Err ValueError /\
  empirical_stability_law libm_log2 (Ffinite true (2 ^ 52)%positive (-52)) = Err ValueError.
Proof.
  intros H. split; [apply law_negative, H | apply law_negative; reflexivity].
Qed.

Lemma empirical_stability_law_negative_witness :
  ltb (Ffinite true (2 ^ 52)%positive (-52)) zero = true /\
  empirical_stability_law SampleLibm.log2 (Ffinite true (2 ^ 52)%positive (-52)) =
  Err ValueError.
Proof.
  assert (H : ltb (Ffinite true (2 ^ 52)%positive (-52)) zero = true) by reflexivity.
  split; [exact H|].
  exact (proj1 (empirical_stability_law_negative SampleLibm.log2
                  (Ffinite true (2 ^ 52)%positive (-52)) H)).
Defined.

(** * Further properties *)

(** ** The common prefix, characterised *)

Lemma heads_tails_None (ss : list str) :
  heads_tails ss = None <-> In [] ss.
Proof.
  induction ss as [|s ss IH]; cbn [heads_tails In].
  - split; [discriminate | contradiction].
  - destruct s as [|c s]; [split; auto|].
    destruct (heads_tails ss) as [[hs tl]|].
    + split; [discriminate|]. intros [H|H]; [discriminate H|].
      apply IH in H. discriminate H.
    + split; [|reflexivity]. intros _. right. apply IH. reflexivity.
Qed.

Lemma heads_tails_In (ss : list str) :
  forall hs tl, heads_tails ss = Some (hs, tl) ->
    (forall s, In s ss <-> exists h t, s = h :: t /\ In (h, t) (combine hs tl)) /\
    List.length hs = List.length tl.
Proof.
  induction ss as [|s ss IH]; intros hs tl H; cbn [heads_tails] in H.
  - injection H as <- <-. split; [|reflexivity].
    intros s. split; [contradiction | intros (h & t & _ & [])].
  - destruct s as [|c s]; [discriminate|].
    destruct (heads_tails ss) as [[hs0 tl0]|]; [|discriminate].
    injection H as <- <-. destruct (IH hs0 tl0 eq_refl) as [HIn Hlen].
    split; [|cbn [List.length]; congruence].
    intros u. cbn [In combine]. rewrite HIn. split.
    + intros [<-|(h & t & -> & Hht)].
      * exists c, s. split; [reflexivity | left; reflexivity].
      * exists h, t. split; [reflexivity | right; exact Hht].
    + intros (h & t & -> & [E|Hht]).
      * injection E as -> ->. left. reflexivity.
      * right. exists h, t. split; [reflexivity | exact Hht].
Qed.

Lemma in_combine_l_ex {A B : Type} (l1 : list A) :
  forall (l2 : list B) a, List.length l1 = List.length l2 -> In a l1 ->
    exists b, In (a, b) (combine l1 l2).
Proof.
  induction l1 as [|x l1 IH]; intros [|y l2] a Hlen Ha; try discriminate Hlen;
    [contradiction|].
  injection Hlen as Hlen. destruct Ha as [<-|Ha].
  - exists y. left. reflexivity.
  - destruct (IH l2 a Hlen Ha) as [b Hb]. exists b. right. exact Hb.
Qed.

Lemma in_combine_r_ex {A B : Type} (l1 : list A) :
  forall (l2 : list B) b, List.length l1 = List.length l2 -> In b l2 ->
    exists a, In (a, b) (combine l1 l2).
Proof.
  induction l1 as [|x l1 IH]; intros [|y l2] b Hlen Hb; try discriminate Hlen;
    [contradiction|].
  injection Hlen as Hlen. destruct Hb as [<-|Hb].
  - exists x. left. reflexivity.
  - destruct (IH l2 b Hlen Hb) as [a Ha]. exists a. right. exact Ha.
Qed.

(** The loop counts at least [k] columns exactly when every string has
    [k] characters and all strings agree on them. *)
Lemma prefix_loop_ge_iff :
  forall (k : nat) (ss : list str), ss <> [] ->
    (Z.of_nat k <= prefix_loop (zip_star ss) 0 <-> common_prefix k ss).
Proof.
  induction k as [|k IH]; intros ss Hne.
  - split; [|intros _; apply prefix_loop_nonneg].
    intros _ s t _ _. split; [lia | reflexivity].
  - rewrite (zip_star_step ss Hne).
    destruct (heads_tails ss) as [[hs tl]|] eqn:Hht.
    + destruct (heads_tails_In ss hs tl Hht) as [HIn Hlen].
      assert (Htl : tl <> []).
      { intros ->. apply heads_tails_length in Hht. destruct ss; [congruence | discriminate]. }
      assert (Hheads : common_prefix (S k) ss -> all_equal_first hs = true).
      { intros Hcp. apply all_equal_first_iff. intros h h' Hh Hh'.
        destruct (in_combine_l_ex hs tl h Hlen Hh) as [t Ht].
        destruct (in_combine_l_ex hs tl h' Hlen Hh') as [t' Ht'].
        assert (H1 : In (h :: t) ss) by (apply HIn; eauto).
        assert (H2 : In (h' :: t') ss) by (apply HIn; eauto).
        destruct (Hcp _ _ H1 H2) as [_ E]. cbn [firstn] in E. congruence. }
      cbn [prefix_loop]. rewrite prefix_loop_acc.
      destruct (all_equal_first hs) eqn:Hall.
      * specialize (IH tl Htl). split.
        -- intros Hge. assert (Hcp : common_prefix k tl) by (apply IH; lia).
           intros s t Hs Ht.
           apply HIn in Hs. destruct Hs as (h & s' & -> & Hs).
           apply HIn in Ht. destruct Ht as (h' & t' & -> & Ht).
           destruct (Hcp s' t' (in_combine_r _ _ _ _ Hs) (in_combine_r _ _ _ _ Ht))
             as [Hl E].
           rewrite all_equal_first_iff in Hall.
           rewrite (Hall h h' (in_combine_l _ _ _ _ Hs) (in_combine_l _ _ _ _ Ht)).
           cbn [List.length firstn]. split; [lia | congruence].
        -- intros Hcp. assert (Hcp' : common_prefix k tl).
           { intros s' t' Hs Ht.
             destruct (in_combine_r_ex hs tl s' Hlen Hs) as [h Hh].
             destruct (in_combine_r_ex hs tl t' Hlen Ht) as [h' Hh'].
             assert (H1 : In (h :: s') ss) by (apply HIn; eauto).
             assert (H2 : In (h' :: t') ss) by (apply HIn; eauto).
             destruct (Hcp _ _ H1 H2) as [Hl E]. cbn [List.length firstn] in Hl, E.
             split; [lia | congruence]. }
           apply IH in Hcp'. lia.
      * split; [lia|]. intros Hcp. apply Hheads in Hcp. discriminate Hcp.
    + cbn [prefix_loop]. split; [lia|]. intros Hcp.
      apply heads_tails_None in Hht. destruct (Hcp [] [] Hht Hht) as [Hl _].
      cbn [List.length] in Hl. lia.
Qed.

Lemma common_prefix_incl (k : nat) (ss ts : list str) :
  incl ts ss -> common_prefix k ss -> common_prefix k ts.
Proof. intros Hi H s t Hs Ht. apply H; apply Hi; assumption. Qed.

Lemma prefix_loop_incl (ss ts : list str) :
  ts <> [] -> incl ts ss ->
  prefix_loop (zip_star ss) 0 <= prefix_loop (zip_star ts) 0.
Proof.
  intros Hts Hi.
  assert (Hss : ss <> []).
  { destruct ts as [|t ts]; [congruence|]. intros ->. apply (Hi t). left. reflexivity. }
  assert (H0 := prefix_loop_nonneg (zip_star ss)).
  rewrite <- (Z2Nat.id _ H0) at 1.
  apply (prefix_loop_ge_iff _ ts Hts), (common_prefix_incl _ ss ts Hi).
  apply (prefix_loop_ge_iff _ ss Hss). lia.
Qed.

Lemma encoding_length (x : pyfloat) : List.length (encoding x) = 64%nat.
Proof. apply bits_be_length. Qed.

Lemma prefix_loop_encodings_le (xs : list pyfloat) :
  prefix_loop (zip_star (map encoding xs)) 0 <= 64.
Proof.
  destruct xs as [|x0 xs]; [simpl; lia|].
  assert (H0 := prefix_loop_nonneg (zip_star (map encoding (x0 :: xs)))).
  assert (Hcp : common_prefix (Z.to_nat (prefix_loop (zip_star (map encoding (x0 :: xs))) 0))
                  (map encoding (x0 :: xs)))
    by (apply prefix_loop_ge_iff; [discriminate | lia]).
  destruct (Hcp (encoding x0) (encoding x0)) as [Hl _]; try (left; reflexivity).
  rewrite encoding_length in Hl. lia.
Qed.

(** X1.  On a non-empty sequence [common_bit_prefix] returns the length of
    the longest common prefix of the encodings: a number [k] between 0
    and 64 such that the encodings agree on their first [j] characters
    exactly for the [j] up to [k]. *)
Theorem common_bit_prefix_longest (xs : list pyfloat) :
  xs <> [] ->
  exists k,
    common_bit_prefix xs = Ok k /\ 0 <= k <= 64 /\
    forall j : nat,
      Z.of_nat j <= k <->
      (j <= 64)%nat /\
      forall x y bx by_, In x xs -> In y xs ->
        float_to_bin64 x = Ok bx -> float_to_bin64 y = Ok by_ ->
        firstn j bx = firstn j by_.
Proof.
  intros Hne. exists (prefix_loop (zip_star (map encoding xs)) 0).
  assert (Hmap : map encoding xs <> []) by (destruct xs; [congruence | discriminate]).
  assert (Hx : exists x, In x xs) by (destruct xs as [|x xs]; [congruence | exists x; left; reflexivity]).
  destruct Hx as [x0 Hx0].
  assert (Hiff : forall j : nat,
            Z.of_nat j <= prefix_loop (zip_star (map encoding xs)) 0 <->
            (j <= 64)%nat /\
            forall x y bx by_, In x xs -> In y xs ->
              float_to_bin64 x = Ok bx -> float_to_bin64 y = Ok by_ ->
              firstn j bx = firstn j by_).
  { intros j. rewrite (prefix_loop_ge_iff j _ Hmap). split.
    - intros Hcp. split.
      + destruct (Hcp (encoding x0) (encoding x0)) as [Hl _];
          try (apply in_map; exact Hx0).
        rewrite encoding_length in Hl. exact Hl.
      + intros x y bx by_ Hx Hy Ex Ey.
        rewrite float_to_bin64_bits in Ex, Ey. apply Ok_inj in Ex, Ey. subst bx by_.
        apply (Hcp (encoding x) (encoding y)); apply in_map; assumption.
    - intros [Hj H] s t Hs Ht.
      apply in_map_iff in Hs. destruct Hs as (x & <- & Hx).
      apply in_map_iff in Ht. destruct Ht as (y & <- & Hy).
      rewrite encoding_length. split; [exact Hj|].
      apply (H x y); try assumption; apply float_to_bin64_bits. }
  split; [apply common_bit_prefix_eq|].
  split.
  - split; [apply prefix_loop_nonneg|].
    assert (H0 := prefix_loop_nonneg (zip_star (map encoding xs))).
    destruct (Hiff (Z.to_nat (prefix_loop (zip_star (map encoding xs)) 0))) as [H _].
    destruct H as [H _]; lia.
  - exact Hiff.
Qed.

Lemma common_bit_prefix_longest_witness :
  [one; pi] <> [] /\
  exists k,
    common_bit_prefix [one; pi] = Ok k /\ 0 <= k <= 64 /\
    forall j : nat,
      Z.of_nat j <= k <->
      (j <= 64)%nat /\
      forall x y bx by_, In x [one; pi] -> In y [one; pi] ->
        float_to_bin64 x = Ok bx -> float_to_bin64 y = Ok by_ ->
        firstn j bx = firstn j by_.
Proof.
  assert (H : [one; pi] <> []) by discriminate.
  split; [exact H | exact (common_bit_prefix_longest [one; pi] H)].
Defined.

(** X2.  The result only depends on which values occur: two sequences
    with the same elements, in any order and with any repetitions, have
    the same common prefix length. *)
Theorem common_bit_prefix_same_elements (xs ys : list pyfloat) :
  (forall x, In x xs <-> In x ys) ->
  common_bit_prefix xs = common_bit_prefix ys.
Proof.
  intros H. rewrite !common_bit_prefix_eq. f_equal.
  change (fun x : pyfloat => bits_be 64 (Struct.bits x)) with encoding.
  destruct xs as [|x xs]; destruct ys as [|y ys].
  - reflexivity.
  - exfalso. apply (H y). left. reflexivity.
  - exfalso. apply (H x). left. reflexivity.
  - apply Z.le_antisymm; apply prefix_loop_incl; try discriminate;
      intros s Hs; apply in_map_iff in Hs; destruct Hs as (u & <- & Hu);
      apply (in_map encoding), H, Hu.
Qed.

Lemma common_bit_prefix_same_elements_witness :
  (forall x, In x [one; pi; one] <-> In x [pi; one]) /\
  common_bit_prefix [one; pi; one] = common_bit_prefix [pi; one].
Proof.
  assert (H : forall x, In x [one; pi; one] <-> In x [pi; one])
    by (intros x; cbn [In]; tauto).
  split; [exact H | exact (common_bit_prefix_same_elements _ _ H)].
Defined.

(** X3.  The common prefix of a non-empty sequence is the whole encoding,
    64 bits, exactly when all its values have the same encoding. *)
Theorem common_bit_prefix_64_iff (xs : list pyfloat) :
  xs <> [] ->
  (common_bit_prefix xs = Ok 64 <->
   forall x y, In x xs -> In y xs -> float_to_bin64 x = float_to_bin64 y).
Proof.
  intros Hne. rewrite common_bit_prefix_eq.
  change (fun x : pyfloat => bits_be 64 (Struct.bits x)) with encoding.
  assert (Hmap : map encoding xs <> []) by (destruct xs; [congruence | discriminate]).
  assert (Hle : prefix_loop (zip_star (map encoding xs)) 0 <= 64).
  { assert (H0 := prefix_loop_nonneg (zip_star (map encoding xs))).
    destruct xs as [|x0 xs]; [congruence|].
    assert (Hcp : common_prefix (Z.to_nat (prefix_loop (zip_star (map encoding (x0 :: xs))) 0))
                    (map encoding (x0 :: xs)))
      by (apply prefix_loop_ge_iff; [exact Hmap | lia]).
    destruct (Hcp (encoding x0) (encoding x0)) as [Hl _]; try (left; reflexivity).
    rewrite encoding_length in Hl. lia. }
  split.
  - intros E x y Hx Hy. apply Ok_inj in E.
    assert (Hcp : common_prefix 64 (map encoding xs))
      by (apply prefix_loop_ge_iff; [exact Hmap | rewrite E; simpl; lia]).
    destruct (Hcp (encoding x) (encoding y)) as [_ Hf]; try (apply in_map; assumption).
    rewrite !float_to_bin64_bits. f_equal. fold (encoding x) (encoding y).
    rewrite <- (firstn_all (encoding x)), <- (firstn_all (encoding y)), !encoding_length.
    exact Hf.
  - intros H. f_equal. apply Z.le_antisymm; [exact Hle|].
    change 64 with (Z.of_nat 64). apply (prefix_loop_ge_iff 64 _ Hmap).
    intros s t Hs Ht.
    apply in_map_iff in Hs. destruct Hs as (x & <- & Hx).
    apply in_map_iff in Ht. destruct Ht as (y & <- & Hy).
    rewrite encoding_length. split; [lia|].
    specialize (H x y Hx Hy). rewrite !float_to_bin64_bits in H. apply Ok_inj in H.
    unfold encoding. rewrite H. reflexivity.
Qed.

Lemma common_bit_prefix_64_iff_witness :
  [pi; pi; pi] <> [] /\ common_bit_prefix [pi; pi; pi] = Ok 64.
Proof.
  assert (H : [pi; pi; pi] <> []) by discriminate.
  split; [exact H|].
  apply (proj2 (common_bit_prefix_64_iff [pi; pi; pi] H)).
  intros x y [<-|[<-|[<-|[]]]] [<-|[<-|[<-|[]]]]; reflexivity.
Defined.

(** ** Hamming distance and the common prefix *)

Lemma differences_cons (a b : ascii) (l1 l2 : str) :
  differences (a :: l1) (b :: l2) =
  Z.b2z (negb (Ascii.eqb a b)) + differences l1 l2.
Proof.
  unfold differences, sum. cbn [combine map fold_left]. rewrite sum_acc. reflexivity.
Qed.

Lemma differences_sym (l1 : str) :
  forall l2, differences l1 l2 = differences l2 l1.
Proof.
  induction l1 as [|a l1 IH]; intros [|b l2]; try reflexivity.
  rewrite !differences_cons, IH, Ascii.eqb_sym. reflexivity.
Qed.

Lemma differences_le_length (l1 : str) :
  forall l2, differences l1 l2 <= Z.of_nat (List.length l1).
Proof.
  induction l1 as [|a l1 IH]; intros [|b l2]; try (unfold differences, sum; simpl; lia).
  rewrite differences_cons. specialize (IH l2). cbn [List.length].
  destruct (Ascii.eqb a b); simpl Z.b2z; lia.
Qed.

(** Strings that agree on their first [k] characters differ in at most
    the remaining ones. *)
Lemma differences_after_prefix (k : nat) :
  forall l1 l2, (k <= List.length l1)%nat -> firstn k l1 = firstn k l2 ->
    differences l1 l2 <= Z.of_nat (List.length l1) - Z.of_nat k.
Proof.
  induction k as [|k IH]; intros l1 l2 Hk E.
  - assert (H := differences_le_length l1 l2). lia.
  - destruct l1 as [|a l1]; [cbn [List.length] in Hk; lia|].
    destruct l2 as [|b l2]; [discriminate E|].
    cbn [firstn] in E. injection E as -> E.
    rewrite differences_cons, Ascii.eqb_refl. cbn [List.length] in Hk |- *.
    specialize (IH l1 l2 ltac:(lia) E). simpl Z.b2z. lia.
Qed.

Lemma hamming_distance_differences (x y : pyfloat) :
  hamming_distance x y = Ok (differences (encoding x) (encoding y)).
Proof. apply hamming_distance_eq. Qed.

(** X4.  The Hamming distance is symmetric. *)
Theorem hamming_distance_symmetric (x y : pyfloat) :
  hamming_distance x y = hamming_distance y x.
Proof.
  rewrite !hamming_distance_differences, differences_sym. reflexivity.
Qed.

(** X5.  The two comparators of a pair of values always return, and the
    bits that differ all lie after the common prefix: the distance [h]
    and the prefix length [k] satisfy 0 <= h, 0 <= k and h + k <= 64. *)
Theorem hamming_distance_after_prefix (x y : pyfloat) :
  exists h k,
    hamming_distance x y = Ok h /\
    common_bit_prefix [x; y] = Ok k /\
    0 <= h /\ 0 <= k /\ h + k <= 64.
Proof.
  exists (differences (encoding x) (encoding y)),
         (prefix_loop (zip_star (map encoding [x; y])) 0).
  split; [apply hamming_distance_differences|].
  split; [apply common_bit_prefix_eq|].
  assert (H0 := prefix_loop_nonneg (zip_star (map encoding [x; y]))).
  split; [apply differences_nonneg|]. split; [exact H0|].
  assert (Hcp : common_prefix (Z.to_nat (prefix_loop (zip_star (map encoding [x; y])) 0))
                  (map encoding [x; y]))
    by (apply prefix_loop_ge_iff; [discriminate | lia]).
  destruct (Hcp (encoding x) (encoding y)) as [Hl E];
    [left; reflexivity | right; left; reflexivity |].
  assert (H := differences_after_prefix _ _ _ Hl E).
  rewrite encoding_length in H. lia.
Qed.

Lemma differences_triangle (l1 : str) :
  forall l2 l3,
    List.length l1 = List.length l2 -> List.length l2 = List.length l3 ->
    differences l1 l3 <= differences l1 l2 + differences l2 l3.
Proof.
  induction l1 as [|a l1 IH]; intros [|b l2] [|c l3] H12 H23;
    try discriminate H12; try discriminate H23.
  - unfold differences, sum. simpl. lia.
  - injection H12 as H12. injection H23 as H23.
    rewrite !differences_cons. specialize (IH l2 l3 H12 H23).
    destruct (Ascii.eqb_spec a c) as [Hac|Hac];
      destruct (Ascii.eqb_spec a b) as [Hab|Hab];
      destruct (Ascii.eqb_spec b c) as [Hbc|Hbc];
      simpl Z.b2z; try lia; congruence.
Qed.

(** X6.  The Hamming distance satisfies the triangle inequality: going
    through a third value never shortens the distance. *)
Theorem hamming_distance_triangle (x y z : pyfloat) :
  exists hxz hxy hyz,
    hamming_distance x z = Ok hxz /\
    hamming_distance x y = Ok hxy /\
    hamming_distance y z = Ok hyz /\
    hxz <= hxy + hyz.
Proof.
  exists (differences (encoding x) (encoding z)),
         (differences (encoding x) (encoding y)),
         (differences (encoding y) (encoding z)).
  repeat (split; [apply hamming_distance_differences|]).
  apply differences_triangle; rewrite !encoding_length; reflexivity.
Qed.

(** X7.  Common prefixes of pairs are ultrametric: two values share at
    least as many leading bits as the shorter of the prefixes each of
    them shares with a third value. *)
Theorem common_bit_prefix_ultrametric (x y z : pyfloat) :
  exists kxz kxy kyz,
    common_bit_prefix [x; z] = Ok kxz /\
    common_bit_prefix [x; y] = Ok kxy /\
    common_bit_prefix [y; z] = Ok kyz /\
    Z.min kxy kyz <= kxz.
Proof.
  exists (prefix_loop (zip_star (map encoding [x; z])) 0),
         (prefix_loop (zip_star (map encoding [x; y])) 0),
         (prefix_loop (zip_star (map encoding [y; z])) 0).
  repeat (split; [apply common_bit_prefix_eq|]).
  assert (Hxy := prefix_loop_nonneg (zip_star (map encoding [x; y]))).
  assert (Hyz := prefix_loop_nonneg (zip_star (map encoding [y; z]))).
  set (kxy := prefix_loop (zip_star (map encoding [x; y])) 0) in *.
  set (kyz := prefix_loop (zip_star (map encoding [y; z])) 0) in *.
  set (k := Z.to_nat (Z.min kxy kyz)).
  assert (H1 : common_prefix k (map encoding [x; y]))
    by (apply prefix_loop_ge_iff; [discriminate | fold kxy; lia]).
  assert (H2 : common_prefix k (map encoding [y; z]))
    by (apply prefix_loop_ge_iff; [discriminate | fold kyz; lia]).
  replace (Z.min kxy kyz) with (Z.of_nat k) by lia.
  apply prefix_loop_ge_iff; [discriminate|].
  destruct (H1 (encoding x) (encoding y)) as [Hlx Exy];
    [left; reflexivity | right; left; reflexivity |].
  destruct (H2 (encoding y) (encoding z)) as [Hly Eyz];
    [left; reflexivity | right; left; reflexivity |].
  assert (Hlz : (k <= List.length (encoding z))%nat)
    by (rewrite encoding_length; rewrite encoding_length in Hlx; exact Hlx).
  cbn [map]. intros s t [<-|[<-|[]]] [<-|[<-|[]]]; split;
    try assumption; try reflexivity; congruence.
Qed.

(** ** The encoding determines the double *)

Lemma bit_char_inj (a b : bool) : bit_char a = bit_char b -> a = b.
Proof. destruct a, b; simpl; intros H; try reflexivity; discriminate H. Qed.

Lemma bits_be_mod (w : nat) (v : Z) : bits_be w v = bits_be w (v mod 2 ^ Z.of_nat w).
Proof.
  rewrite (Z.div_mod v (2 ^ Z.of_nat w)) at 1 by lia.
  rewrite (Z.mul_comm (2 ^ Z.of_nat w)). apply bits_be_low. lia.
Qed.

Lemma top_bit (w : nat) (v : Z) :
  0 <= v < 2 ^ Z.of_nat (S w) ->
  v = Z.b2z (Z.testbit v (Z.of_nat w)) * 2 ^ Z.of_nat w + v mod 2 ^ Z.of_nat w.
Proof.
  intros Hv. rewrite Nat2Z.inj_succ, Z.pow_succ_r in Hv by lia.
  assert (Hp : 0 < 2 ^ Z.of_nat w) by (apply Z.pow_pos_nonneg; lia).
  rewrite Z.testbit_odd, Z.shiftr_div_pow2 by lia.
  assert (Hq : 0 <= v / 2 ^ Z.of_nat w < 2).
  { split; [apply Z.div_pos; lia | apply Z.div_lt_upper_bound; lia]. }
  assert (E := Z.div_mod v (2 ^ Z.of_nat w) ltac:(lia)).
  assert (Hc : v / 2 ^ Z.of_nat w = 0 \/ v / 2 ^ Z.of_nat w = 1) by lia.
  destruct Hc as [Hc|Hc]; rewrite Hc in *; simpl Z.b2z; lia.
Qed.

Lemma bits_be_inj (w : nat) :
  forall v v', 0 <= v < 2 ^ Z.of_nat w -> 0 <= v' < 2 ^ Z.of_nat w ->
    bits_be w v = bits_be w v' -> v = v'.
Proof.
  induction w as [|w IH]; intros v v' Hv Hv' E.
  - simpl in Hv, Hv'. lia.
  - cbn [bits_be] in E. injection E as Eb E. apply bit_char_inj in Eb.
    rewrite (bits_be_mod w v), (bits_be_mod w v') in E.
    assert (Hp : 0 < 2 ^ Z.of_nat w) by (apply Z.pow_pos_nonneg; lia).
    apply IH in E; try (apply Z.mod_pos_bound; exact Hp).
    rewrite (top_bit w v Hv), (top_bit w v' Hv'), Eb, E. reflexivity.
Qed.

Lemma fields_inj (x y : pyfloat) :
  wf x = true -> wf y = true ->
  Struct.sign x = Struct.sign y ->
  Struct.exponent x = Struct.exponent y ->
  Struct.mantissa x = Struct.mantissa y ->
  x = y.
Proof.
  intros Hx Hy Hs He Hm.
  destruct x as [s|s|s pl|s m e]; destruct y as [s'|s'|s' pl'|s' m' e'];
    cbn [Struct.sign Struct.exponent Struct.mantissa wf] in *;
    repeat match goal with
      | H : bounded prec emax ?m ?e = true |- _ =>
          apply bounded_cases in H; destruct H as [[? ?]|[? ?]]
      | H : context [Z.pos ?m <? 2 ^ 52] |- _ =>
          destruct (Z.ltb_spec (Z.pos m) (2 ^ 52))
      end;
    try lia; subst; try reflexivity.
  - f_equal. lia.
  - f_equal; lia.
  - f_equal; lia.
Qed.

Lemma bits_inj (x y : pyfloat) :
  wf x = true -> wf y = true -> Struct.bits x = Struct.bits y -> x = y.
Proof.
  intros Hx Hy E.
  destruct (fields_range x Hx) as [Hex Hmx].
  destruct (fields_range y Hy) as [Hey Hmy].
  unfold Struct.bits in E.
  change (2 ^ 63) with 9223372036854775808 in E.
  change (2 ^ 52) with 4503599627370496 in *.
  change (2 ^ 11) with 2048 in *.
  apply fields_inj; try assumption;
    destruct (Struct.sign x), (Struct.sign y); simpl Z.b2z in E; try reflexivity; lia.
Qed.

(** X8.  Distinct doubles have distinct encodings: two well-formed
    binary64 values with the same encoding are the same value (the same
    zero, infinity, NaN payload or finite number), and so their Hamming
    distance is 0 exactly when they are equal. *)
Theorem float_to_bin64_injective (x y : pyfloat) :
  wf x = true -> wf y = true ->
  (float_to_bin64 x = float_to_bin64 y <-> x = y) /\
  (hamming_distance x y = Ok 0 <-> x = y).
Proof.
  intros Hx Hy.
  assert (Henc : float_to_bin64 x = float_to_bin64 y <-> x = y).
  { split; [|intros ->; reflexivity].
    rewrite !float_to_bin64_bits. intros E. apply Ok_inj in E.
    apply bits_inj; try assumption.
    apply (bits_be_inj 64); [apply bits_range, Hx | apply bits_range, Hy | exact E]. }
  split; [exact Henc|].
  rewrite <- Henc, hamming_distance_differences, !float_to_bin64_bits.
  assert (Hlen : List.length (encoding x) = List.length (encoding y))
    by (rewrite !encoding_length; reflexivity).
  unfold differences. fold (encoding x) (encoding y).
  generalize dependent (encoding y). generalize (encoding x). intros bx by_ Hlen.
  split; intros H; apply Ok_inj in H; f_equal;
    apply (differences_zero_iff _ _ Hlen), H.
Qed.

Lemma float_to_bin64_injective_witness :
  wf zero = true /\ wf neg_zero = true /\
  (float_to_bin64 zero = float_to_bin64 neg_zero <-> zero = neg_zero) /\
  (hamming_distance zero neg_zero = Ok 0 <-> zero = neg_zero).
Proof.
  assert (H1 : wf zero = true) by reflexivity.
  assert (H2 : wf neg_zero = true) by reflexivity.
  split; [exact H1|]. split; [exact H2|].
  exact (float_to_bin64_injective zero neg_zero H1 H2).
Defined.

(** ** More on the cascade product *)

(** X9.  A cascade length that is zero or negative gives an empty range:
    [Cn z n] raises nothing and returns 1.0 for every [n <= 0]. *)
Theorem Cn_nonpositive (libm_sin libm_cos : pyfloat -> pyfloat)
    (z : pyfloat) (n : Z) :
  n <= 0 -> Cn libm_sin libm_cos z n = Ok one.
Proof.
  intros Hn. unfold Cn, range, interval.
  replace (Z.to_nat (n - 0)) with O by lia. reflexivity.
Qed.

Lemma Cn_nonpositive_witness :
  -3 <= 0 /\ Cn SampleLibm.sin SampleLibm.cos pi (-3) = Ok one.
Proof.
  assert (H : -3 <= 0) by lia.
  split; [exact H | exact (Cn_nonpositive SampleLibm.sin SampleLibm.cos pi (-3) H)].
Defined.

Lemma firstn_succ_nth_error {A : Type} (l : list A) :
  forall k a, nth_error l k = Some a -> firstn (S k) l = firstn k l ++ [a].
Proof.
  induction l as [|h l IH]; intros [|k] a H; simpl in H; try discriminate.
  - injection H as ->. reflexivity.
  - cbn [firstn app]. f_equal. apply (IH k a H).
Qed.

(** X10.  One more term: for [0 <= n < 1229] the cascade of length [n + 1]
    is the cascade of length [n] times the resonance term of the prime at
    index [n] of the pool, [Cn(z, n + 1) = Cn(z, n) * R(z, primes[n])]. *)
Theorem Cn_succ
    (libm_sin libm_cos : pyfloat -> pyfloat)
    (libm_sin_finite : forall x, is_finite x = true -> is_finite (libm_sin x) = true)
    (libm_cos_finite : forall x, is_finite x = true -> is_finite (libm_cos x) = true)
    (z : pyfloat) (n : Z) :
  0 <= n < 1229 ->
  exists c p r,
    Cn libm_sin libm_cos z n = Ok c /\
    getitem (primerange 2 (2 + 10000)) n = Ok p /\
    R libm_sin libm_cos z p = Ok r /\
    Cn libm_sin libm_cos z (n + 1) = Ok (mul c r).
Proof.
  intros Hn.
  assert (Hlen := pool_length).
  remember (primerange 2 (2 + 10000)) as pool eqn:Hpool.
  destruct (nth_error pool (Z.to_nat n)) as [p|] eqn:Hnth;
    [|apply nth_error_None in Hnth; lia].
  exists (CascadeProduct libm_sin libm_cos (firstn (Z.to_nat n) pool)), p,
         (ResonanceTerm libm_sin libm_cos p).
  split.
  { rewrite Cn_unfold by assumption. rewrite <- Hpool.
    destruct (Z.leb_spec n 1229); [reflexivity | lia]. }
  split.
  { rewrite <- (Z2Nat.id n) at 1 by lia. rewrite getitem_of_nat, Hnth. reflexivity. }
  split.
  { apply R_ok_pool; try assumption. rewrite <- Hpool. apply (nth_error_In _ _ Hnth). }
  rewrite Cn_unfold by assumption. rewrite <- Hpool.
  destruct (Z.leb_spec (n + 1) 1229); [|lia].
  replace (Z.to_nat (n + 1)) with (S (Z.to_nat n)) by lia.
  rewrite (firstn_succ_nth_error _ _ _ Hnth).
  unfold CascadeProduct. rewrite fold_left_app. reflexivity.
Qed.

Lemma Cn_succ_witness :
  0 <= 2 < 1229 /\
  exists c p r,
    Cn SampleLibm.sin SampleLibm.cos one 2 = Ok c /\
    getitem (primerange 2 (2 + 10000)) 2 = Ok p /\
    R SampleLibm.sin SampleLibm.cos one p = Ok r /\
    Cn SampleLibm.sin SampleLibm.cos one (2 + 1) = Ok (mul c r).
Proof.
  assert (H : 0 <= 2 < 1229) by lia.
  split; [exact H|].
  exact (Cn_succ SampleLibm.sin SampleLibm.cos sample_sin_finite sample_cos_finite one 2 H).
Defined.

(** X11.  The pool that [Cn] draws from holds exactly the primes from 2 to
    10001, in strictly increasing order: 1229 of them, from 2 to 9973. *)
Theorem prime_pool_spec :
  (forall p, In p (primerange 2 (2 + 10000)) <-> 2 <= p < 10002 /\ Z.prime p) /\
  StronglySorted Z.lt (primerange 2 (2 + 10000)) /\
  List.length (primerange 2 (2 + 10000)) = 1229%nat /\
  hd 0 (primerange 2 (2 + 10000)) = 2 /\
  last (primerange 2 (2 + 10000)) 0 = 9973.
Proof.
  split; [intros p; apply primerange_spec|].
  split; [apply primerange_sorted|].
  split; [apply pool_length|].
  split; vm_compute; reflexivity.
Qed.

(** ** More on the stability predictor *)

Lemma math_1_outcome (func : pyfloat -> pyfloat) (x : pyfloat) :
  Math.math_1 func false x = Ok (func x) \/ Math.math_1 func false x = Err ValueError.
Proof.
  unfold Math.math_1.
  destruct (is_nan (func x) && negb (is_nan x)); [right; reflexivity|].
  destruct (is_inf (func x) && is_finite x); [right|left]; reflexivity.
Qed.

Lemma floor_outcome (x : pyfloat) :
  (exists k, Float.floor x = Ok k) \/ Float.floor x = Err ValueError \/
  Float.floor x = Err OverflowError.
Proof.
  destruct x as [s|s|s pl|s m e]; cbn [Float.floor]; eauto.
Qed.

(** X12.  The test [epsilon == 0] guards the division: on every double the
    predictor either returns an integer or raises [ValueError] or
    [OverflowError], and never [ZeroDivisionError]. *)
Theorem empirical_stability_law_outcomes
    (libm_log2 : pyfloat -> pyfloat) (epsilon : pyfloat) :
  ((exists k, empirical_stability_law libm_log2 epsilon = Ok k) \/
   empirical_stability_law libm_log2 epsilon = Err ValueError \/
   empirical_stability_law libm_log2 epsilon = Err OverflowError) /\
  empirical_stability_law libm_log2 epsilon <> Err ZeroDivisionError.
Proof.
  assert (H : (exists k, empirical_stability_law libm_log2 epsilon = Ok k) \/
              empirical_stability_law libm_log2 epsilon = Err ValueError \/
              empirical_stability_law libm_log2 epsilon = Err OverflowError).
  { unfold empirical_stability_law.
    destruct (eqb epsilon zero) eqn:Hz; [left; exists 64; reflexivity|].
    rewrite int_truediv_1 by exact Hz. cbn [bind]. unfold Math.log2.
    destruct (math_1_outcome (Math.m_log2 libm_log2) (div one epsilon)) as [E|E];
      rewrite E; cbn [bind]; [|right; left; reflexivity].
    destruct (floor_outcome (Math.m_log2 libm_log2 (div one epsilon)))
      as [[k E']|[E'|E']]; rewrite E'; cbn [bind]; eauto. }
  split; [exact H|].
  destruct H as [[k E]|[E|E]]; rewrite E; discriminate.
Qed.

(** X13.  Special values of [epsilon], whatever the C library's [log2]:
    both zeros compare equal to 0 and give 64; plus infinity has the
    reciprocal 0.0, whose logarithm is a domain error; a NaN, of any sign
    and payload, reaches [math.floor], which raises [ValueError]. *)
Theorem empirical_stability_law_special
    (libm_log2 : pyfloat -> pyfloat) (s : bool) (pl : positive) :
  empirical_stability_law libm_log2 (Fzero s) = Ok 64 /\
  empirical_stability_law libm_log2 (Finf false) = Err ValueError /\
  empirical_stability_law libm_log2 (Fnan s pl) = Err ValueError.
Proof. repeat split; destruct s; reflexivity. Qed.

(** ** The demonstration drivers *)

Lemma print_samples_lines (vals : list pyfloat) :
  forall i, print_samples i vals = (sample_lines i vals, Ok tt).
Proof.
  induction vals as [|val vals IH]; intros i; cbn [print_samples sample_lines].
  - reflexivity.
  - rewrite float_to_bin64_bits, IH. reflexivity.
Qed.

Lemma sample_lines_count_from (f : Z -> pyfloat) :
  forall len i,
    sample_lines i (map f (count_from len i)) =
    map (fun n => SampleLine n (f n) (bits_be 64 (Struct.bits (f n)))) (count_from len i).
Proof.
  induction len as [|len IH]; intros i; cbn [count_from map sample_lines];
    [reflexivity | rewrite IH; reflexivity].
Qed.

Lemma sub_self (x : pyfloat) : is_finite x = true -> sub x x = Fzero false.
Proof.
  destruct x as [s|s|s pl|s m e]; intros H; try discriminate H.
  - destruct s; reflexivity.
  - unfold sub. cbn [to_SF SFsub]. rewrite Z.min_id.
    unfold shl_align. rewrite Z.sub_diag. reflexivity.
Qed.

Lemma prefix_loop_same (s : str) :
  prefix_loop (zip_star [s; s]) 0 = Z.of_nat (List.length s).
Proof.
  apply Z.le_antisymm.
  - assert (H0 := prefix_loop_nonneg (zip_star [s; s])).
    assert (Hcp : common_prefix (Z.to_nat (prefix_loop (zip_star [s; s]) 0)) [s; s])
      by (apply prefix_loop_ge_iff; [discriminate | lia]).
    destruct (Hcp s s) as [Hl _]; try (left; reflexivity). lia.
  - apply prefix_loop_ge_iff; [discriminate|].
    intros u v [<-|[<-|[]]] [<-|[<-|[]]]; split; try lia; reflexivity.
Qed.

Section Drivers.

Variables libm_sin libm_cos libm_log2 : pyfloat -> pyfloat.

Hypothesis libm_sin_finite :
  forall x, is_finite x = true -> is_finite (libm_sin x) = true.
Hypothesis libm_cos_finite :
  forall x, is_finite x = true -> is_finite (libm_cos x) = true.

Let value := cascade_value libm_sin libm_cos.

(** The scan returns the cascade values when every length is within the
    pool, and raises [IndexError] otherwise. *)
Lemma scan_spec (z : pyfloat) (ns : list Z) :
  scan libm_sin libm_cos z ns =
  if forallb (fun n => n <=? 1229) ns then Ok (map value ns) else Err IndexError.
Proof using libm_sin_finite libm_cos_finite.
  induction ns as [|n ns IH]; cbn [scan forallb map]; [reflexivity|].
  rewrite Cn_unfold by assumption.
  destruct (n <=? 1229); cbn [bind andb]; [|reflexivity].
  rewrite IH. destruct (forallb (fun n => n <=? 1229) ns); reflexivity.
Qed.

End Drivers.

Lemma forallb_interval_le (a b c : Z) :
  forallb (fun n => n <=? c) (interval a b) = true <-> (b <= a \/ b - 1 <= c).
Proof.
  rewrite forallb_forall. unfold interval. split.
  - intros H. destruct (Z.le_gt_cases b a) as [Hba|Hba]; [left; exact Hba|].
    right. apply Z.leb_le, H, in_count_from. lia.
  - intros H n Hn. apply in_count_from in Hn. apply Z.leb_le. lia.
Qed.

(** X14.  The perturbation demonstration cannot see its perturbation.  With
    a C library whose sine and cosine are finite on finite doubles, for
    every [z], every [delta] and every [n] within the pool whose cascade
    value is finite, the driver prints the same value as base and as
    perturbed value, a common prefix of 64 bits, a Hamming distance of 0,
    a difference of 0.0 and a predicted 64 stable bits, and returns. *)
Theorem demo_input_perturbation_reports_no_change
    (libm_sin libm_cos libm_log2 : pyfloat -> pyfloat)
    (libm_sin_finite : forall x, is_finite x = true -> is_finite (libm_sin x) = true)
    (libm_cos_finite : forall x, is_finite x = true -> is_finite (libm_cos x) = true)
    (z : pyfloat) (n : Z) (delta : pyfloat) :
  n <= 1229 ->
  is_finite (cascade_value libm_sin libm_cos n) = true ->
  demo_input_perturbation libm_sin libm_cos libm_log2 z n delta =
  ([BaseLine (cascade_value libm_sin libm_cos n) (cascade_value libm_sin libm_cos n);
    CommonPrefixLine 64;
    HammingLine 0;
    DifferenceLine (Fzero false);
    LawLine 64],
   Ok tt).
Proof.
  intros Hn Hfin. unfold demo_input_perturbation.
  rewrite !Cn_unfold by assumption.
  destruct (Z.leb_spec n 1229); [|lia].
  fold (cascade_value libm_sin libm_cos n).
  set (b := cascade_value libm_sin libm_cos n) in *.
  assert (Hp : common_bit_prefix [b; b] = Ok 64).
  { rewrite common_bit_prefix_eq. cbn [map].
    rewrite prefix_loop_same, bits_be_length. reflexivity. }
  assert (Hh : hamming_distance b b = Ok 0).
  { rewrite hamming_distance_eq. f_equal.
    apply differences_zero_iff; reflexivity. }
  unfold silent, io_bind. rewrite Hp, Hh, (sub_self b Hfin). reflexivity.
Qed.

Lemma demo_input_perturbation_reports_no_change_witness :
  3 <= 1229 /\
  is_finite (cascade_value SampleLibm.sin SampleLibm.cos 3) = true /\
  demo_input_perturbation SampleLibm.sin SampleLibm.cos SampleLibm.log2 one 3 pi =
  ([BaseLine (cascade_value SampleLibm.sin SampleLibm.cos 3)
      (cascade_value SampleLibm.sin SampleLibm.cos 3);
    CommonPrefixLine 64;
    HammingLine 0;
    DifferenceLine (Fzero false);
    LawLine 64],
   Ok tt).
Proof.
  assert (H1 : 3 <= 1229) by lia.
  assert (H2 : is_finite (cascade_value SampleLibm.sin SampleLibm.cos 3) = true)
    by (vm_compute; reflexivity).
  split; [exact H1|]. split; [exact H2|].
  exact (demo_input_perturbation_reports_no_change
           SampleLibm.sin SampleLibm.cos SampleLibm.log2
           sample_sin_finite sample_cos_finite one 3 pi H1 H2).
Defined.

(** X15.  With a cascade length beyond the pool the perturbation
    demonstration raises [IndexError] before it prints anything. *)
Theorem demo_input_perturbation_insufficient_primes
    (libm_sin libm_cos libm_log2 : pyfloat -> pyfloat)
    (libm_sin_finite : forall x, is_finite x = true -> is_finite (libm_sin x) = true)
    (libm_cos_finite : forall x, is_finite x = true -> is_finite (libm_cos x) = true)
    (z : pyfloat) (n : Z) (delta : pyfloat) :
  1229 < n ->
  demo_input_perturbation libm_sin libm_cos libm_log2 z n delta = ([], Err IndexError).
Proof.
  intros Hn. unfold demo_input_perturbation.
  rewrite Cn_unfold by assumption.
  destruct (Z.leb_spec n 1229); [lia | reflexivity].
Qed.

Lemma demo_input_perturbation_insufficient_primes_witness :
  1229 < 1230 /\
  demo_input_perturbation SampleLibm.sin SampleLibm.cos SampleLibm.log2 one 1230 pi =
  ([], Err IndexError).
Proof.
  assert (H : 1229 < 1230) by lia.
  split; [exact H|].
  exact (demo_input_perturbation_insufficient_primes
           SampleLibm.sin SampleLibm.cos SampleLibm.log2
           sample_sin_finite sample_cos_finite one 1230 pi H).
Defined.

(** X16.  When the scanned range is not empty and ends beyond the pool, the
    sequence demonstration raises [IndexError] before it prints anything:
    the lines of the lengths that could be computed are lost. *)
Theorem demo_sequence_extension_insufficient_primes
    (libm_sin libm_cos : pyfloat -> pyfloat)
    (libm_sin_finite : forall x, is_finite x = true -> is_finite (libm_sin x) = true)
    (libm_cos_finite : forall x, is_finite x = true -> is_finite (libm_cos x) = true)
    (z : pyfloat) (n_start n_end : Z) :
  n_start <= n_end -> 1229 < n_end ->
  demo_sequence_extension libm_sin libm_cos z n_start n_end = ([], Err IndexError).
Proof.
  intros Hse Hn. unfold demo_sequence_extension. cbv zeta.
  rewrite scan_spec by assumption.
  destruct (forallb (fun n => n <=? 1229) (interval n_start (n_end + 1))) eqn:E;
    [|reflexivity].
  apply forallb_interval_le in E. lia.
Qed.

Lemma demo_sequence_extension_insufficient_primes_witness :
  1228 <= 1230 /\ 1229 < 1230 /\
  demo_sequence_extension SampleLibm.sin SampleLibm.cos one 1228 1230 =
  ([], Err IndexError).
Proof.
  assert (H1 : 1228 <= 1230) by lia.
  assert (H2 : 1229 < 1230) by lia.
  split; [exact H1|]. split; [exact H2|].
  exact (demo_sequence_extension_insufficient_primes
           SampleLibm.sin SampleLibm.cos sample_sin_finite sample_cos_finite
           one 1228 1230 H1 H2).
Defined.

(** X17.  When the scanned range ends within the pool, the sequence
    demonstration returns after printing, in this order: the common
    prefix length [k] of all the cascade values of the range, which is
    between 0 and 64; one line per length [n] of the range, in ascending
    order, with the cascade value of [n] and its encoding; and the plot
    of the values against the lengths. *)
Theorem demo_sequence_extension_output
    (libm_sin libm_cos : pyfloat -> pyfloat)
    (libm_sin_finite : forall x, is_finite x = true -> is_finite (libm_sin x) = true)
    (libm_cos_finite : forall x, is_finite x = true -> is_finite (libm_cos x) = true)
    (z : pyfloat) (n_start n_end : Z) :
  n_end <= 1229 ->
  let ns := interval n_start (n_end + 1) in
  let value := cascade_value libm_sin libm_cos in
  exists k,
    common_bit_prefix (map value ns) = Ok k /\ 0 <= k <= 64 /\
    demo_sequence_extension libm_sin libm_cos z n_start n_end =
    (PrefixLine n_start n_end k
       :: map (fun n => SampleLine n (value n) (encoding (value n))) ns
       ++ [Plot ns (map value ns)],
     Ok tt).
Proof.
  intros Hn ns value.
  exists (prefix_loop (zip_star (map encoding (map value ns))) 0).
  split; [apply common_bit_prefix_eq|].
  split; [split; [apply prefix_loop_nonneg | apply prefix_loop_encodings_le]|].
  unfold demo_sequence_extension. cbv zeta. fold ns.
  rewrite scan_spec by assumption. fold value.
  replace (forallb (fun n => n <=? 1229) ns) with true
    by (symmetry; apply forallb_interval_le; lia).
  assert (Hs : sample_lines n_start (map value ns) =
               map (fun n => SampleLine n (value n) (encoding (value n))) ns)
    by (unfold ns, interval; apply sample_lines_count_from).
  unfold silent, io_bind at 1. rewrite common_bit_prefix_eq.
  rewrite print_samples_lines, Hs. reflexivity.
Qed.

Lemma demo_sequence_extension_output_witness :
  5 <= 1229 /\
  exists k,
    common_bit_prefix
      (map (cascade_value SampleLibm.sin SampleLibm.cos) (interval 3 (5 + 1))) = Ok k /\
    0 <= k <= 64 /\
    demo_sequence_extension SampleLibm.sin SampleLibm.cos one 3 5 =
    (PrefixLine 3 5 k
       :: map (fun n => SampleLine n (cascade_value SampleLibm.sin SampleLibm.cos n)
                          (encoding (cascade_value SampleLibm.sin SampleLibm.cos n)))
            (interval 3 (5 + 1))
       ++ [Plot (interval 3 (5 + 1))
             (map (cascade_value SampleLibm.sin SampleLibm.cos) (interval 3 (5 + 1)))],
     Ok tt).
Proof.
  assert (H : 5 <= 1229) by lia.
  split; [exact H|].
  exact (demo_sequence_extension_output SampleLibm.sin SampleLibm.cos
           sample_sin_finite sample_cos_finite one 3 5 H).
Defined.

(** X18.  An empty range, [n_end < n_start], computes no cascade at all:
    the sequence demonstration prints a common prefix of 0 bits, no
    sample line and an empty plot, and returns, for every C library. *)
Theorem demo_sequence_extension_empty_range
    (libm_sin libm_cos : pyfloat -> pyfloat) (z : pyfloat) (n_start n_end : Z) :
  n_end < n_start ->
  demo_sequence_extension libm_sin libm_cos z n_start n_end =
  ([PrefixLine n_start n_end 0; Plot [] []], Ok tt).
Proof.
  intros H. unfold demo_sequence_extension, interval.
  replace (Z.to_nat (n_end + 1 - n_start)) with O by lia. reflexivity.
Qed.

Lemma demo_sequence_extension_empty_range_witness :
  2 < 3 /\
  demo_sequence_extension SampleLibm.sin SampleLibm.cos one 3 2 =
  ([PrefixLine 3 2 0; Plot [] []], Ok tt).
Proof.
  assert (H : 2 < 3) by lia.
  split; [exact H|].
  exact (demo_sequence_extension_empty_range SampleLibm.sin SampleLibm.cos one 3 2 H).
Defined.
